(** * unha2.client: the realtime client's dispatch engine

    A shallow embedding of [src/unha2/client.py]: the classes [ClientData],
    [ClientAPI], [Client], [EventClient] and [OverrideClient], together with
    the part of the asyncio event loop they rely on (the ready queue fed by
    [call_soon] and [ensure_future], sleeping tasks, and the closure cells
    of the lambdas that [EventClient.event] hands to [call_soon]).

    Python objects are mutable and shared; the client object, its holder,
    its queue and the loop it runs on are gathered in one record [World]
    that every method threads through the monad [M] (state plus raised
    exception). *)

From Stdlib Require Import ZArith SpecFloat.
From stdpp Require Import base option list strings gmap.

Open Scope string_scope.
Open Scope list_scope.

#[local] Set Warnings "-register-all".

(** ** Python values *)

(** The JSON-like values that travel through the client: messages are
    dicts with string keys, payloads are arbitrary.  No message carries a
    float; the one float of the module is the delay computed in
    [on_too_many_requests]. *)
Inductive pyval : Type :=
| PNone
| PBool (b : bool)
| PInt (z : Z)
| PStr (s : string)
| PList (l : list pyval)
| PDict (d : list (string * pyval)).

(** Truth value testing, as done by [if value:] and [if not msg:]. *)
Definition truthy (v : pyval) : bool :=
  match v with
  | PNone => false
  | PBool b => b
  | PInt z => negb (z =? 0)%Z
  | PStr s => negb (String.eqb s "")
  | PList l => match l with [] => false | _ :: _ => true end
  | PDict d => match d with [] => false | _ :: _ => true end
  end.

(** Exceptions that the modelled code can raise. *)
Inductive exn : Type :=
| KeyError (key : pyval)
| TypeError
| ValueError
| NameError
| NotImplementedError
| OverflowError
| ServerException (error_message : string) (error_result recover_message : pyval).

Inductive res (A : Type) : Type :=
| Ok (a : A)
| Raise (e : exn).
Arguments Ok {A} a.
Arguments Raise {A} e.

Fixpoint assoc (k : string) (d : list (string * pyval)) : option pyval :=
  match d with
  | [] => None
  | (k', v) :: d' => if String.eqb k k' then Some v else assoc k d'
  end.

(** [v[k]] for a string key. *)
Definition getitem (v : pyval) (k : string) : res pyval :=
  match v with
  | PDict d => match assoc k d with Some x => Ok x | None => Raise (KeyError (PStr k)) end
  | _ => Raise TypeError
  end.

(** [v.get(k)] of a dict. *)
Definition dict_get (v : pyval) (k : string) : res (option pyval) :=
  match v with
  | PDict d => Ok (assoc k d)
  | _ => Raise TypeError
  end.

(** [int(v)].  The conversion of a string is Python's own parser and is
    taken as an argument. *)
Definition py_int (int_of_str : string → option Z) (v : pyval) : res Z :=
  match v with
  | PInt z => Ok z
  | PBool b => Ok (if b then 1 else 0)%Z
  | PStr s => match int_of_str s with Some z => Ok z | None => Raise ValueError end
  | PNone | PList _ | PDict _ => Raise TypeError
  end.

(** ** Floats *)

(** A Python float is an IEEE 754 binary64 number: 53 bits of precision,
    exponents up to 1024. *)
Definition float : Type := spec_float.

(** The literal [0.001]: the double nearest to one thousandth,
    [0x1.0624dd2f1a9fcp-10]. *)
Definition float_0_001 : float := S754_finite false 4611686018427388 (-62).

(** The conversion of an [int] operand that [int * float] starts with:
    the nearest double, ties to even, and OverflowError ("int too large
    to convert to float") when that is beyond the largest double. *)
Definition float_of_int (z : Z) : res float :=
  match binary_normalize 53 1024 z 0 false with
  | S754_infinity _ => Raise OverflowError
  | f => Ok f
  end.

(** [n * x] for an [int] [n] and a [float] [x]. *)
Definition int_mul_float (n : Z) (x : float) : res float :=
  match float_of_int n with
  | Ok f => Ok (SFmul 53 1024 f x)
  | Raise e => Raise e
  end.

(** [x <= 0] for a float [x]; false for a NaN. *)
Definition float_le_0 (x : float) : bool := SFleb x (S754_zero false).

(** [list.remove(x)]: drops the first element equal to [x]; [None] stands
    for the [ValueError] raised when there is none. *)
Fixpoint list_remove {A} `{EqDecision A} (x : A) (l : list A) : option (list A) :=
  match l with
  | [] => None
  | y :: l' => if decide (x = y) then Some l'
               else match list_remove x l' with
                    | Some r => Some (y :: r)
                    | None => None
                    end
  end.

(** ** unha2.model.base *)

(** Modelled from the spec: the enum [RawMessageType] of [unha2.model.base],
    which is not part of the sources.  Its members are the message kinds
    that section 4.1 of the spec lists; [client.py] names ten of them. *)
Inductive RawMessageType : Type :=
| NONE | PING | PONG | CONNECTED | RESULT | READY
| ADDED | CHANGED | UPDATED | REMOVED | FAILED | UNKNOWN.

Global Instance RawMessageType_eq_dec : EqDecision RawMessageType.
Proof. solve_decision. Defined.

(** The members of [ChangedStreamMessage] that [client.py] names. *)
Inductive ChangedStreamMessage : Type :=
| USERS | NOTIFY_USER | NOTIFY_ROOM | ROOM_MESSAGES.

(** ** Callbacks *)

(** A registered listener is a Python callable, compared by identity:
    one of the five bound methods that [EventClient.__init__] installs,
    or a callable of the application, named by a number. *)
Inductive callback : Type :=
| self_added | self_failed | self_changed | self_updated | self_removed
| user_cb (id : nat).

Global Instance callback_eq_dec : EqDecision callback.
Proof. solve_decision. Defined.

(** What an application callback may do to the client when it runs. *)
Inductive stmt : Type :=
| SAddCb (name : string) (cb : callback)      (* client.add_cb(name, cb) *)
| SDelCb (name : string) (cb : callback)      (* client.del_cb(name, cb) *)
| SEvent (name : string) (data : pyval)       (* client.event(name, data) *)
| SSetStop (value : pyval).                   (* client.stop = value *)

(** ** What lies outside [client.py] *)

(** Functions and constants of the packages [client.py] imports, the
    builtin string parser of [int], and the application's callbacks. *)
Class Env : Type := {
  msg_type : pyval → RawMessageType;            (* parse.base.msg_type *)
  parse_connected : pyval → res pyval;          (* parse.connected.parse *)
  parse_changed_notify_user : pyval → res pyval;  (* parse.changed.notify_user *)
  parse_changed_room_message : pyval → res pyval; (* parse.changed.room_message *)
  TOO_MANY_REQUESTS : string;                   (* ErrorType.TOO_MANY_REQUESTS.value *)
  ChangedStreamMessage_of : pyval → option ChangedStreamMessage;
                                                (* ChangedStreamMessage(value) *)
  is_NotifyUser : pyval → bool;                 (* value is a member of NotifyUser *)
  is_RoomMessage : pyval → bool;                (* value is a member of RoomMessage *)
  int_of_str : string → option Z;               (* int(s) for a string *)
  iscoroutinefunction : nat → bool;             (* asyncio.iscoroutinefunction *)
  body : nat → pyval → list stmt;               (* the callable's body *)
  error_kind : pyval → string                   (* the kind of an error payload *)
}.

(** ** ClientData *)

Record ClientData : Type := {
  server : string;
  username : string;
  password : string;
  token : pyval;
  session : pyval;
  user_id : pyval;
  token_expires : pyval
}.

(** [ClientData.__init__] *)
Definition ClientData_init (server username password : string) : ClientData :=
  {| server := server; username := username; password := password;
     token := PStr ""; session := PStr ""; user_id := PStr "";
     token_expires := PNone |}.

Definition credentials (d : ClientData) : string * string :=
  (username d, password d).

(** ** The holder *)

(** Modelled from the spec: the class [AsyncHolder] of [unha2.holder] is
    not part of the sources.  The record and the operations follow the
    CallCorrelator of sections 3, 4.2 and 7 of the spec. *)
Record ServerError : Type := {
  errorKind : string;
  rawErrorPayload : pyval;
  originalRequestPayload : pyval
}.

Inductive completion : Type :=
| Success (value : pyval)
| Failure (error : ServerError).

(** Modelled from the spec: the states of a Subscription (section 3). *)
Inductive sub_state : Type := Requested | Ready.

(** Modelled from the spec: the table of pending calls and subscriptions
    that the CallCorrelator owns, with the slots it has filled and the
    ids it has reported as unknown. *)
Record AsyncHolder : Type := {
  pending : gmap string pyval;              (* id of a pending call, its request *)
  subs : gmap string sub_state;             (* subscriptions *)
  delivered : list (string * completion);   (* slots filled, oldest first *)
  unknown_ids : list string                 (* UnknownIdError: logged and dropped *)
}.

Definition AsyncHolder_init : AsyncHolder :=
  {| pending := ∅; subs := ∅; delivered := []; unknown_ids := [] |}.

(** Modelled from the spec: [register(id)] of section 4.2, refused with
    DuplicateIdError ([None]) when the id is pending; the table keeps the
    request so that a ServerError can carry it. *)
Definition register (id : string) (request : pyval) (h : AsyncHolder) : option AsyncHolder :=
  match pending h !! id with
  | Some _ => None
  | None => Some {| pending := <[id := request]> (pending h); subs := subs h;
                    delivered := delivered h; unknown_ids := unknown_ids h |}
  end.

(** Modelled from the spec: the matching rule shared by [resolveSuccess]
    and [resolveFailure] of section 4.2: the slot of a pending id is
    filled and its entry removed; an id that is not pending is reported
    and dropped. *)
Definition resolve (id : string) (c : completion) (h : AsyncHolder) : AsyncHolder :=
  match pending h !! id with
  | Some _ => {| pending := delete id (pending h); subs := subs h;
                 delivered := delivered h ++ [(id, c)];
                 unknown_ids := unknown_ids h |}
  | None => {| pending := pending h; subs := subs h; delivered := delivered h;
               unknown_ids := unknown_ids h ++ [id] |}
  end.

(** Modelled from the spec: [resolveSuccess(id, value)] and
    [resolveFailure(id, error)] of section 4.2. *)
Definition resolveSuccess (id : string) (value : pyval) : AsyncHolder → AsyncHolder :=
  resolve id (Success value).

Definition resolveFailure (id : string) (error : ServerError) : AsyncHolder → AsyncHolder :=
  resolve id (Failure error).

(** Modelled from the spec: [markReady(subscriptionId)] of section 4.2. *)
Definition markReady (id : string) (h : AsyncHolder) : AsyncHolder :=
  match subs h !! id with
  | Some _ => {| pending := pending h; subs := <[id := Ready]> (subs h);
                 delivered := delivered h; unknown_ids := unknown_ids h |}
  | None => {| pending := pending h; subs := subs h; delivered := delivered h;
               unknown_ids := unknown_ids h ++ [id] |}
  end.

(** ** The event loop and the client object *)

(** Coroutines of the imported packages that the client starts. *)
Inductive extern : Type :=
| sock_send_connect                          (* sock.send(ws, build.misc.connect()) *)
| sock_send_pong                             (* sock.send(ws, build.misc.pong()) *)
| send_message (room_id text : pyval)        (* methods.send_message(ws, holder, ..) *)
| login_sha256 (username password : string). (* methods.login_sha256(ws, holder, ..) *)

(** The rest of a task that is suspended in an [await]. *)
Inductive cont : Type :=
| KTooManyRequests (recover_message : pyval) (* on_too_many_requests, after the sleep *)
| KLogin.                                    (* do_login and api.login, after the call *)

(** What a suspended task waits for. *)
Inductive awaited : Type :=
| Timer (delay : float)                      (* seconds *)
| Call (c : extern).

(** An entry of the loop's ready queue. *)
Inductive handle : Type :=
| HLambda (frame : nat)                      (* call_soon(lambda: cb(data)) *)
| HCoroutine (cb : callback) (data : pyval)  (* ensure_future(cb(data)) *)
| HExtern (c : extern)
| HDoConnect                                 (* ensure_future(self.do_connect()) *)
| HSendPong                                  (* ensure_future(self.send_pong()) *)
| HDoLogin                                   (* ensure_future(self.do_login()) *)
| HParse (msg : pyval) (msgtype : RawMessageType)
| HOnError (errortype : string) (error_result recover_message : pyval)
| HResume (k : cont) (v : pyval).            (* a suspended task, woken with [v] *)

(** The local variables of one call of [EventClient.event] that its
    lambdas close over.  The lambdas share the cells: they see the value
    a variable has when they run, not the one it had when they were made. *)
Record frame : Type := {
  cell_cb : option callback;
  cell_data : pyval
}.

(** What the run leaves behind, oldest first. *)
Inductive effect : Type :=
| Invoked (cb : callback) (data : pyval)     (* the body of [cb(data)] ran *)
| Classified (msg : pyval)                   (* parse.base.msg_type(msg) was called *)
| Started (c : extern)                       (* an imported coroutine began *)
| Unhandled (e : exn).                       (* a task or handle ended in [e] *)

Inductive klass : Type := ClientK | EventClientK | OverrideClientK.

Record World : Type := {
  cls : klass;                               (* the class of the client object *)
  data : ClientData;                         (* self.data *)
  _holder : AsyncHolder;                     (* self._holder *)
  _queue : list pyval;                       (* self._queue, head first *)
  _stop : bool;                              (* self._stop *)
  self_session : option pyval;               (* self.session, unset at first *)
  callbacks : gmap string (list callback);   (* self.callbacks, a defaultdict(list) *)
  ready : list handle;                       (* the loop's ready queue *)
  waiting : list (awaited * cont);           (* suspended tasks *)
  frames : list frame;                       (* closure cells *)
  trace : list effect
}.

Definition set_data (f : ClientData → ClientData) (w : World) : World :=
  {| cls := cls w; data := f (data w); _holder := _holder w; _queue := _queue w;
     _stop := _stop w; self_session := self_session w; callbacks := callbacks w;
     ready := ready w; waiting := waiting w; frames := frames w; trace := trace w |}.

Definition set_holder (f : AsyncHolder → AsyncHolder) (w : World) : World :=
  {| cls := cls w; data := data w; _holder := f (_holder w); _queue := _queue w;
     _stop := _stop w; self_session := self_session w; callbacks := callbacks w;
     ready := ready w; waiting := waiting w; frames := frames w; trace := trace w |}.

Definition set_queue (f : list pyval → list pyval) (w : World) : World :=
  {| cls := cls w; data := data w; _holder := _holder w; _queue := f (_queue w);
     _stop := _stop w; self_session := self_session w; callbacks := callbacks w;
     ready := ready w; waiting := waiting w; frames := frames w; trace := trace w |}.

Definition set_stop (b : bool) (w : World) : World :=
  {| cls := cls w; data := data w; _holder := _holder w; _queue := _queue w;
     _stop := b; self_session := self_session w; callbacks := callbacks w;
     ready := ready w; waiting := waiting w; frames := frames w; trace := trace w |}.

Definition set_self_session (v : pyval) (w : World) : World :=
  {| cls := cls w; data := data w; _holder := _holder w; _queue := _queue w;
     _stop := _stop w; self_session := Some v; callbacks := callbacks w;
     ready := ready w; waiting := waiting w; frames := frames w; trace := trace w |}.

Definition set_callbacks (f : gmap string (list callback) → gmap string (list callback))
    (w : World) : World :=
  {| cls := cls w; data := data w; _holder := _holder w; _queue := _queue w;
     _stop := _stop w; self_session := self_session w; callbacks := f (callbacks w);
     ready := ready w; waiting := waiting w; frames := frames w; trace := trace w |}.

Definition set_ready (f : list handle → list handle) (w : World) : World :=
  {| cls := cls w; data := data w; _holder := _holder w; _queue := _queue w;
     _stop := _stop w; self_session := self_session w; callbacks := callbacks w;
     ready := f (ready w); waiting := waiting w; frames := frames w; trace := trace w |}.

Definition set_waiting (f : list (awaited * cont) → list (awaited * cont))
    (w : World) : World :=
  {| cls := cls w; data := data w; _holder := _holder w; _queue := _queue w;
     _stop := _stop w; self_session := self_session w; callbacks := callbacks w;
     ready := ready w; waiting := f (waiting w); frames := frames w; trace := trace w |}.

Definition set_frames (f : list frame → list frame) (w : World) : World :=
  {| cls := cls w; data := data w; _holder := _holder w; _queue := _queue w;
     _stop := _stop w; self_session := self_session w; callbacks := callbacks w;
     ready := ready w; waiting := waiting w; frames := f (frames w); trace := trace w |}.

Definition set_trace (f : list effect → list effect) (w : World) : World :=
  {| cls := cls w; data := data w; _holder := _holder w; _queue := _queue w;
     _stop := _stop w; self_session := self_session w; callbacks := callbacks w;
     ready := ready w; waiting := waiting w; frames := frames w; trace := f (trace w) |}.

(** ** The monad of methods: state and raised exception *)

Definition M (A : Type) : Type := World → res A * World.

Global Instance M_ret : MRet M := λ A a w, (Ok a, w).
Global Instance M_bind : MBind M := λ A B f m w,
  match m w with
  | (Ok a, w') => f a w'
  | (Raise e, w') => (Raise e, w')
  end.

Definition raise {A} (e : exn) : M A := λ w, (Raise e, w).
Definition lift {A} (r : res A) : M A := λ w, (r, w).
Definition get : M World := λ w, (Ok w, w).
Definition modify (f : World → World) : M unit := λ w, (Ok (), f w).

(** [for x in l: f(x)] for a loop body that leaves [l] alone. *)
Fixpoint for_each {A} (f : A → M unit) (l : list A) : M unit :=
  match l with
  | [] => mret ()
  | x :: l' => f x ;; for_each f l'
  end.

(** [loop.call_soon(h)] and the scheduling step of [asyncio.ensure_future]. *)
Definition call_soon (h : handle) : M unit := modify (set_ready (λ r, r ++ [h])).

Definition log (e : effect) : M unit := modify (set_trace (λ t, t ++ [e])).

(** [await asyncio.sleep(delay)] in a task whose remainder is [k]: with
    a delay that is not positive the task only yields to the loop. *)
Definition sleep (delay : float) (k : cont) : M unit :=
  if float_le_0 delay then call_soon (HResume k PNone)
  else modify (set_waiting (λ l, l ++ [(Timer delay, k)])).

(** [try: m except ServerException as e: handler(e)] *)
Definition try_except_ServerException {A} (m : M A)
    (handler : string → pyval → pyval → M A) : M A := λ w,
  match m w with
  | (Raise (ServerException msg r rm), w') => handler msg r rm w'
  | other => other
  end.

(** [try: m except ValueError: handler] *)
Definition try_except_ValueError {A} (m : M A) (handler : M A) : M A := λ w,
  match m w with
  | (Raise ValueError, w') => handler w'
  | other => other
  end.

Section Client.
Context `{Env}.

(** Modelled from the spec: [AsyncHolder.recv_result], which is not part
    of the sources.  Section 4.4: the presence of an error payload routes
    to [resolveFailure], else to [resolveSuccess]; the failure is a
    ServerError of the payload's kind, the raw message and the request of
    the call.  [Client.on_result] shows that the failure leaves the holder
    as a [ServerException] carrying these three. *)
Definition recv_result (msg : pyval) (h : AsyncHolder) : res unit * AsyncHolder :=
  match getitem msg "id" with
  | Ok (PStr id) =>
      match dict_get msg "error", dict_get msg "result" with
      | Ok (Some err), _ =>
          match pending h !! id with
          | Some request =>
              (Raise (ServerException (error_kind err) msg request),
               resolveFailure id {| errorKind := error_kind err;
                                    rawErrorPayload := msg;
                                    originalRequestPayload := request |} h)
          | None =>
              (Ok (), resolveFailure id {| errorKind := error_kind err;
                                           rawErrorPayload := msg;
                                           originalRequestPayload := PNone |} h)
          end
      | Ok None, Ok value => (Ok (), resolveSuccess id (default PNone value) h)
      | Raise e, _ | _, Raise e => (Raise e, h)
      end
  | Ok _ => (Raise TypeError, h)
  | Raise e => (Raise e, h)
  end.

(** Modelled from the spec: [AsyncHolder.recv_ready], which is not part
    of the sources: [markReady] for every id of the message's [subs]. *)
Definition recv_ready (msg : pyval) (h : AsyncHolder) : res unit * AsyncHolder :=
  match getitem msg "subs" with
  | Ok (PList ids) =>
      (Ok (), foldl (λ h v, match v with PStr id => markReady id h | _ => h end) h ids)
  | Ok _ => (Raise TypeError, h)
  | Raise e => (Raise e, h)
  end.

(** A method of the holder, run on [self._holder]. *)
Definition on_holder (f : AsyncHolder → res unit * AsyncHolder) : M unit := λ w,
  let '(r, h) := f (_holder w) in (r, set_holder (λ _, h) w).

(** *** ClientAPI *)

Definition connect : M unit := call_soon (HExtern sock_send_connect).

Definition api_send_pong : M unit := log (Started sock_send_pong).

Definition send_msg (room_id text : pyval) : M unit :=
  call_soon (HExtern (send_message room_id text)).

(** [ClientAPI.login] up to its [await]: the call is started and the task
    waits for its result. *)
Definition login : M unit :=
  w ← get;
  let '(username, password) := credentials (data w) in
  log (Started (login_sha256 username password));;
  modify (set_waiting (λ l, l ++ [(Call (login_sha256 username password), KLogin)])).

(** [ClientAPI.login] from the moment the awaited call returns [res]. *)
Definition login_resume (res : pyval) : M pyval :=
  tok ← lift (getitem res "token");
  modify (set_data (λ d, {| server := server d; username := username d;
                            password := password d; token := tok;
                            session := session d; user_id := user_id d;
                            token_expires := token_expires d |}));;
  expires ← lift (getitem res "expires");
  modify (set_data (λ d, {| server := server d; username := username d;
                            password := password d; token := token d;
                            session := session d; user_id := user_id d;
                            token_expires := expires |}));;
  uid ← lift (getitem res "user_id");
  modify (set_data (λ d, {| server := server d; username := username d;
                            password := password d; token := token d;
                            session := session d; user_id := uid;
                            token_expires := token_expires d |}));;
  mret res.

(** *** EventClient: the listener registry *)

(** [self.callbacks[name]]: a [defaultdict(list)] stores an empty list
    under a missing key before it returns it. *)
Definition callbacks_getitem (name : string) : M (list callback) :=
  w ← get;
  match callbacks w !! name with
  | Some l => mret l
  | None => modify (set_callbacks (λ m, <[name := []]> m));; mret []
  end.

(** The listeners registered under [name], as [self.callbacks[name]]
    would read them. *)
Definition listeners (w : World) (name : string) : list callback :=
  default [] (callbacks w !! name).

Definition is_coroutine (cb : callback) : bool :=
  match cb with
  | user_cb n => iscoroutinefunction n
  | _ => false
  end.

(** The body of the loop of [event], for the frame [fid] of the call. *)
Definition event_iter (fid : nat) (data : pyval) (cb : callback) : M unit :=
  modify (set_frames (λ fs, <[fid := {| cell_cb := Some cb; cell_data := data |}]> fs));;
  if is_coroutine cb then call_soon (HCoroutine cb data)
  else call_soon (HLambda fid).

(** [EventClient.event].  The loop only schedules: no listener runs, and
    so none can touch the list, before it is over. *)
Definition event (name : string) (data : pyval) : M unit :=
  l ← callbacks_getitem name;
  w ← get;
  let fid := length (frames w) in
  modify (set_frames (λ fs, fs ++ [{| cell_cb := None; cell_data := data |}]));;
  for_each (event_iter fid data) l.

(** The handle that [event] queues for one listener. *)
Definition queued (fid : nat) (data : pyval) (cb : callback) : handle :=
  if is_coroutine cb then HCoroutine cb data else HLambda fid.

Definition add_cb (name : string) (cb : callback) : M unit :=
  l ← callbacks_getitem name;
  modify (set_callbacks (λ m, <[name := (l ++ [cb])]> m)).

Definition del_cb (name : string) (cb : callback) : M bool :=
  try_except_ValueError
    (l ← callbacks_getitem name;
     match list_remove cb l with
     | Some l' => modify (set_callbacks (λ m, <[name := l']> m));; mret true
     | None => raise ValueError
     end)
    (mret false).

Definition EventClient_parse (msg : pyval) (msgtype : RawMessageType) : M unit :=
  if decide (msgtype = ADDED) then event "added" msg
  else if decide (msgtype = CHANGED) then event "changed" msg
  else if decide (msgtype = UPDATED) then event "updated" msg
  else if decide (msgtype = REMOVED) then event "removed" msg
  else if decide (msgtype = FAILED) then event "failed" msg
  else mret ().

Definition changed (msg : pyval) : M unit :=
  c ← lift (getitem msg "collection");
  match ChangedStreamMessage_of c with
  | None => raise ValueError
  | Some USERS => event "users" msg
  | Some NOTIFY_USER => event "notify_user" msg
  | Some NOTIFY_ROOM => event "notify_room" msg
  | Some ROOM_MESSAGES => event "room_message" msg
  end.

(** [EventClient.__init__]: the registry of a new client. *)
Definition EventClient_callbacks : gmap string (list callback) :=
  <["removed" := [self_removed] ]>
  (<["updated" := [self_updated] ]>
  (<["changed" := [self_changed] ]>
  (<["failed" := [self_failed] ]>
  (<["added" := [self_added] ]> ∅)))).

(** [EventClient.do_connect], a plain function. *)
Definition EventClient_do_connect : M unit :=
  event "connection_established" PNone;;
  connect.

(** *** Client *)

(** The getter of the property [Client.stop]. *)
Definition stop (w : World) : bool := _stop w.

(** [self._queue.put_nowait(item)] on an unbounded queue. *)
Definition put_nowait (item : pyval) : World → World :=
  set_queue (λ q, q ++ [item]).

(** The setter of the property [Client.stop]: [client.stop = value]. *)
Definition stop_setter (value : pyval) (w : World) : World :=
  if truthy value then put_nowait PNone (set_stop true w) else w.

(** [Client.on_result] *)
Definition on_result (msg : pyval) : M unit :=
  try_except_ServerException
    (on_holder (recv_result msg))
    (λ error_message error_result recover_message,
       call_soon (HOnError error_message error_result recover_message)).

(** [asyncio.ensure_future(self.do_connect())].  [Client.do_connect] is a
    coroutine function; [EventClient] overrides it with a plain function,
    which runs at once and whose result [None] [ensure_future] refuses. *)
Definition ensure_future_do_connect : M unit :=
  w ← get;
  match cls w with
  | EventClientK => EventClient_do_connect;; raise TypeError
  | ClientK | OverrideClientK => call_soon HDoConnect
  end.

(** The chain of [if]/[elif] of [handler_loop] on the type of a message. *)
Definition dispatch (msg : pyval) (msgtype : RawMessageType) : M unit :=
  if decide (msgtype = NONE) then ensure_future_do_connect
  else if decide (msgtype = PING) then call_soon HSendPong
  else if decide (msgtype = CONNECTED) then
    m ← lift (parse_connected msg);
    s ← lift (getitem m "session");
    modify (set_self_session s);;
    call_soon HDoLogin
  else if decide (msgtype = RESULT) then on_result msg
  else if decide (msgtype = READY) then on_holder (recv_ready msg)
  else call_soon (HParse msg msgtype).

(** The body of the loop of [handler_loop] once [self._queue.get()] has
    returned [msg]. *)
Definition route (msg : pyval) : M unit :=
  if negb (truthy msg) then mret ()
  else
    log (Classified msg);;
    dispatch msg (msg_type msg).

(** How a run of [handler_loop] ends: it returns, it is suspended in
    [self._queue.get()] on an empty queue, or an exception leaves it. *)
Inductive status : Type :=
| Returned
| Blocked
| Crashed (e : exn)
| OutOfFuel.

(** [handler_loop] from [msg = await self._queue.get()] on: where the
    coroutine starts again when it is woken. *)
Fixpoint queue_get (fuel : nat) (w : World) : status * World :=
  match fuel with
  | O => (OutOfFuel, w)
  | S fuel' =>
      match _queue w with
      | [] => (Blocked, w)
      | msg :: q =>
          match route msg (set_queue (λ _, q) w) with
          | (Ok _, w') => if stop w' then (Returned, w') else queue_get fuel' w'
          | (Raise e, w') => (Crashed e, w')
          end
      end
  end.

(** One iteration takes one message off the queue and nothing that the
    loop calls puts one in, so this fuel is never used up
    (see [queue_get_fuel]). *)
Definition handler_resume (w : World) : status * World :=
  queue_get (S (length (_queue w))) w.

(** [Client.handler_loop], from its first line. *)
Definition handler_loop (w : World) : status * World :=
  if stop w then (Returned, w) else handler_resume w.

(** *** OverrideClient *)

Definition on_notify_user (msg : pyval) : M unit :=
  ty ← lift (getitem msg "type");
  if is_NotifyUser ty then mret () else raise (KeyError ty).

(** Every handler of the table of [on_room_message] is a plain function
    that returns [None]. *)
Definition on_room_message (msg : pyval) : M pyval :=
  ty ← lift (getitem msg "type");
  if is_RoomMessage ty then mret PNone else raise (KeyError ty).

Definition on_changed (msg : pyval) : M unit :=
  c ← lift (getitem msg "collection");
  match ChangedStreamMessage_of c with
  | None => raise ValueError
  | Some USERS => mret ()
  | Some NOTIFY_USER => m ← lift (parse_changed_notify_user msg); on_notify_user m
  | Some NOTIFY_ROOM => mret ()
  | Some ROOM_MESSAGES =>
      m ← lift (parse_changed_room_message msg);
      on_room_message m;;
      raise TypeError                        (* [await None] *)
  end.

Definition OverrideClient_parse (msg : pyval) (msgtype : RawMessageType) : M unit :=
  if decide (msgtype = ADDED) then mret ()
  else if decide (msgtype = CHANGED) then on_changed msg
  else if decide (msgtype = UPDATED) then mret ()
  else if decide (msgtype = REMOVED) then mret ()
  else if decide (msgtype = FAILED) then mret ()
  else mret ().

(** [on_too_many_requests] up to its [await asyncio.sleep(timeout)].
    The product [int(..) * 0.001] is a product of floats: the integer is
    converted first, which can raise, and the result is rounded. *)
Definition on_too_many_requests (error_result recover_message : pyval) : M unit :=
  e ← lift (getitem error_result "error");
  d ← lift (getitem e "details");
  t ← lift (getitem d "timeToReset");
  n ← lift (py_int int_of_str t);
  timeout ← lift (int_mul_float n float_0_001);
  sleep timeout (KTooManyRequests recover_message).

(** [on_too_many_requests] from the moment the sleep is over. *)
Definition on_too_many_requests_resume (recover_message : pyval) : M unit :=
  room_id ← lift (getitem recover_message "rid");
  text ← lift (getitem recover_message "msg");
  send_msg room_id text.

(** [OverrideClient.on_error] *)
Definition on_error (errortype : string) (error_result recover_message : pyval) : M unit :=
  if String.eqb errortype TOO_MANY_REQUESTS
  then on_too_many_requests error_result recover_message
  else mret ().

(** *** Running the loop *)

Definition exec (s : stmt) : M unit :=
  match s with
  | SAddCb name cb => add_cb name cb
  | SDelCb name cb => del_cb name cb;; mret ()
  | SEvent name data => event name data
  | SSetStop value => modify (stop_setter value)
  end.

(** The body of a listener. *)
Definition invoke (cb : callback) (data : pyval) : M unit :=
  log (Invoked cb data);;
  match cb with
  | self_added | self_removed | self_updated | self_failed => mret ()
  | self_changed => changed data
  | user_cb n => for_each exec (body n data)
  end.

(** The call [cb(data)] made by a lambda: a coroutine function only
    builds a coroutine object, which is dropped without ever running. *)
Definition call (cb : callback) (data : pyval) : M unit :=
  if is_coroutine cb then mret () else invoke cb data.

Definition run_handle (h : handle) : M unit :=
  match h with
  | HLambda fid =>
      w ← get;
      match frames w !! fid with
      | Some {| cell_cb := Some cb; cell_data := data |} => call cb data
      | _ => raise NameError
      end
  | HCoroutine cb data => invoke cb data
  | HExtern c => log (Started c)
  | HDoConnect => connect
  | HSendPong => api_send_pong
  | HDoLogin => login
  | HParse msg msgtype =>
      w ← get;
      match cls w with
      | ClientK => raise NotImplementedError
      | EventClientK => EventClient_parse msg msgtype
      | OverrideClientK => OverrideClient_parse msg msgtype
      end
  | HOnError errortype error_result recover_message =>
      w ← get;
      match cls w with
      | ClientK | EventClientK => raise NotImplementedError
      | OverrideClientK => on_error errortype error_result recover_message
      end
  | HResume (KTooManyRequests recover_message) _ =>
      on_too_many_requests_resume recover_message
  | HResume KLogin res =>
      result ← login_resume res;
      w ← get;
      match cls w with
      | EventClientK => event "logged_in" result
      | ClientK | OverrideClientK => mret ()
      end
  end.

(** One turn of the loop: the oldest ready handle runs; an exception
    that leaves it is reported and the loop goes on. *)
Definition run_once (w : World) : World :=
  match ready w with
  | [] => w
  | h :: r =>
      match run_handle h (set_ready (λ _, r) w) with
      | (Ok _, w') => w'
      | (Raise e, w') => set_trace (λ t, t ++ [Unhandled e]) w'
      end
  end.

(** [n] turns of the loop. *)
Fixpoint run (n : nat) (w : World) : World :=
  match n with
  | O => w
  | S n' => run n' (run_once w)
  end.

(** The [i]-th suspended task is woken with the value [v]: its timer
    has run out, or the call it waits for has returned. *)
Definition wake (i : nat) (v : pyval) (w : World) : World :=
  match waiting w !! i with
  | Some (_, k) => set_ready (λ r, r ++ [HResume k v]) (set_waiting (delete i) w)
  | None => w
  end.

(** The callbacks that ran, in the order they ran. *)
Definition invocations (w : World) : list (callback * pyval) :=
  omap (λ e, match e with Invoked cb d => Some (cb, d) | _ => None end) (trace w).

End Client.

(** [Client.__init__], with the registry of [EventClient.__init__]. *)
Definition new_client (k : klass) (server username password : string) : World :=
  {| cls := k; data := ClientData_init server username password;
     _holder := AsyncHolder_init; _queue := []; _stop := false;
     self_session := None;
     callbacks := match k with EventClientK => EventClient_callbacks | _ => ∅ end;
     ready := []; waiting := []; frames := []; trace := [] |}.

(** ** A concrete environment *)

(** A classifier by the [msg] field, in the manner of DDP. *)
Definition example_kinds : list (string * RawMessageType) :=
  [("ping", PING); ("pong", PONG); ("connected", CONNECTED); ("result", RESULT);
   ("ready", READY); ("added", ADDED); ("changed", CHANGED); ("updated", UPDATED);
   ("removed", REMOVED); ("failed", FAILED)].

Fixpoint lookup_kind {A} (s : string) (l : list (string * A)) : option A :=
  match l with
  | [] => None
  | (k, v) :: l' => if String.eqb s k then Some v else lookup_kind s l'
  end.

Definition example_msg_type (msg : pyval) : RawMessageType :=
  match getitem msg "msg" with
  | Ok (PStr s) => default UNKNOWN (lookup_kind s example_kinds)
  | Ok _ => UNKNOWN
  | Raise _ => NONE
  end.

Definition example_stream (v : pyval) : option ChangedStreamMessage :=
  match v with
  | PStr s => lookup_kind s [("users", USERS); ("stream-notify-user", NOTIFY_USER);
                             ("stream-notify-room", NOTIFY_ROOM);
                             ("stream-room-messages", ROOM_MESSAGES)]
  | _ => None
  end.

(** Application callbacks: those numbered from 10 on are coroutine
    functions; number 1 registers two more listeners when it runs, the
    others do nothing. *)
Definition example_body (n : nat) (data : pyval) : list stmt :=
  match n with
  | 1 => [SAddCb "x" (user_cb 2); SAddCb "x" (user_cb 3)]
  | _ => []
  end.

Definition example_env : Env :=
  {| msg_type := example_msg_type;
     parse_connected := Ok;
     parse_changed_notify_user := Ok;
     parse_changed_room_message := Ok;
     TOO_MANY_REQUESTS := "too-many-requests";
     ChangedStreamMessage_of := example_stream;
     is_NotifyUser := λ _, false;
     is_RoomMessage := λ _, false;
     int_of_str := λ _, None;
     iscoroutinefunction := λ n, Nat.leb 10 n;
     body := example_body;
     error_kind := λ e, match getitem e "error" with Ok (PStr s) => s | _ => "" end |}.

(** Worlds used in the examples below. *)
Definition example_client (k : klass) : World := new_client k "chat.example" "user" "secret".

(** Two plain listeners under ["x"]. *)
Definition two_sync : World :=
  set_callbacks (<["x" := [user_cb 2; user_cb 3] ]>) (example_client EventClientK).

(** One plain listener under ["x"], which registers two more when it runs. *)
Definition one_adding : World :=
  set_callbacks (<["x" := [user_cb 1] ]>) (example_client EventClientK).

(** A login result that also carries a session id. *)
Definition example_login_result : pyval :=
  PDict [("token", PStr "tok"); ("expires", PInt 1700000000);
         ("user_id", PStr "uid"); ("session", PStr "sess")].

(** A call of id ["42"] that the server refuses with [kind]. *)
Definition example_request : pyval := PDict [("rid", PStr "r1"); ("msg", PStr "hi")].

Definition example_error (kind : string) : pyval :=
  PDict [("msg", PStr "result"); ("id", PStr "42");
         ("error", PDict [("error", PStr kind);
                          ("details", PDict [("timeToReset", PInt 2000)])])].

Definition example_pending : World :=
  set_holder (λ h, default h (register "42" example_request h))
             (example_client OverrideClientK).

(** ** Relations between a world and a later one *)

(** [keeps R m]: the world that [m] leaves is related by [R] to the one
    it started from, whether [m] returns or raises. *)
Definition keeps {A} (R : relation World) (m : M A) : Prop := ∀ w, R w (m w).2.

(** The projection [p] of the world reads the same before and after. *)
Definition same {C} (p : World → C) : relation World := λ w w', p w' = p w.

(** The frames of [w] are still there, unchanged, in [w']. *)
Definition frames_prefix : relation World := λ w w', frames w `prefix_of` frames w'.

(** The handles that were ready in [w] are still at the head of the
    ready queue of [w'], in the same order. *)
Definition ready_prefix : relation World := λ w w', ready w `prefix_of` ready w'.

(** The event name under which [EventClient.parse] fires a message of
    each type, if any. *)
Definition push_event (msgtype : RawMessageType) : option string :=
  match msgtype with
  | ADDED => Some "added"
  | CHANGED => Some "changed"
  | UPDATED => Some "updated"
  | REMOVED => Some "removed"
  | FAILED => Some "failed"
  | _ => None
  end.

(** The event name under which [EventClient.changed] fires again a
    message of each stream. *)
Definition stream_event (s : ChangedStreamMessage) : string :=
  match s with
  | USERS => "users"
  | NOTIFY_USER => "notify_user"
  | NOTIFY_ROOM => "notify_room"
  | ROOM_MESSAGES => "room_message"
  end.

(** Further inputs for the examples. *)

(** Two coroutine functions and then a plain function under ["x"]. *)
Definition two_coroutines_then_plain : World :=
  set_callbacks (<["x" := [user_cb 10; user_cb 11; user_cb 2] ]>)
                (example_client EventClientK).

Definition example_ping : pyval := PDict [("msg", PStr "ping")].

(** The first message of a server, which has no [msg] field. *)
Definition example_hello : pyval := PDict [("server_id", PStr "0")].

Definition example_connected : pyval :=
  PDict [("msg", PStr "connected"); ("session", PStr "abc")].

Definition example_connected_bare : pyval := PDict [("msg", PStr "connected")].

Definition example_added : pyval :=
  PDict [("msg", PStr "added"); ("collection", PStr "users"); ("id", PStr "u1")].

Definition example_changed (collection : string) : pyval :=
  PDict [("msg", PStr "changed"); ("collection", PStr collection)].

Definition example_changed_bare : pyval := PDict [("msg", PStr "changed")].

(** An error result with the given [details]. *)
Definition example_error_with (details : pyval) : pyval :=
  PDict [("msg", PStr "result"); ("id", PStr "42");
         ("error", PDict [("error", PStr "too-many-requests"); ("details", details)])].

(** A coroutine function and a plain function under ["users"]. *)
Definition two_on_users : World :=
  set_callbacks (<["users" := [user_cb 10; user_cb 2] ]>) (example_client EventClientK).

(** A room message of the type ["uj"], a user who joined, and an
    environment like [example_env] in which that type is the one member
    of [RoomMessage]. *)
Definition example_room_joined : pyval :=
  PDict [("msg", PStr "changed"); ("collection", PStr "stream-room-messages");
         ("type", PStr "uj")].

Definition example_env_rooms : Env :=
  {| msg_type := example_msg_type;
     parse_connected := Ok;
     parse_changed_notify_user := Ok;
     parse_changed_room_message := Ok;
     TOO_MANY_REQUESTS := "too-many-requests";
     ChangedStreamMessage_of := example_stream;
     is_NotifyUser := λ _, false;
     is_RoomMessage := λ ty, match ty with PStr s => String.eqb s "uj" | _ => false end;
     int_of_str := λ _, None;
     iscoroutinefunction := λ n, Nat.leb 10 n;
     body := example_body;
     error_kind := λ e, match getitem e "error" with Ok (PStr s) => s | _ => "" end |}.

(** * Properties *)

(** ** Lists *)

Lemma list_remove_None {A} `{EqDecision A} (x : A) (l : list A) :
  x ∉ l → list_remove x l = None.
Proof.
  induction l as [|y l IH]; intros Hx; simpl; [done|].
  apply not_elem_of_cons in Hx as [Hne Hx].
  destruct (decide (x = y)); [done|]. by rewrite IH.
Qed.

Lemma list_remove_Some {A} `{EqDecision A} (x : A) (l : list A) :
  x ∈ l → ∃ l1 l2, l = l1 ++ x :: l2 ∧ (x ∉ l1) ∧ list_remove x l = Some (l1 ++ l2).
Proof.
  induction l as [|y l IH]; intros Hx; [by apply elem_of_nil in Hx|].
  simpl. destruct (decide (x = y)) as [->|Hne].
  - exists [], l. split_and!; [done| apply not_elem_of_nil |done].
  - apply elem_of_cons in Hx as [?|Hx]; [done|].
    destruct (IH Hx) as (l1 & l2 & -> & Hl1 & ->).
    exists (y :: l1), l2. split_and!; [done| |done].
    apply not_elem_of_cons. done.
Qed.

(** ** Floats: rounding to a double *)

(** What the rounding of [SpecFloat] does to a mantissa and an exponent,
    as far as the sign and the range of the delay of
    [on_too_many_requests] need it.  Shifting a mantissa to the right by
    [shr] is [Z.shiftr], and the number of its digits is [Z.log2] plus
    one. *)

Lemma shr_m_shr_1 (mrs : shr_record) :
  (0 ≤ shr_m mrs)%Z → shr_m (shr_1 mrs) = Z.div2 (shr_m mrs).
Proof. destruct mrs as [[|[p|p|]|p] r s]; simpl; intros Hm; try done; lia. Qed.

Lemma shr_m_iter (n : positive) :
  ∀ mrs, (0 ≤ shr_m mrs)%Z →
         shr_m (SpecFloat.iter_pos shr_1 n mrs) = Z.shiftr (shr_m mrs) (Zpos n).
Proof.
  induction n as [n IH|n IH|]; intros mrs Hm; simpl SpecFloat.iter_pos.
  - assert (0 ≤ shr_m (shr_1 mrs))%Z as H1.
    { rewrite shr_m_shr_1 by done. rewrite Z.div2_nonneg. done. }
    assert (0 ≤ shr_m (SpecFloat.iter_pos shr_1 n (shr_1 mrs)))%Z as H2.
    { rewrite IH by done. apply Z.shiftr_nonneg. done. }
    rewrite IH, IH, shr_m_shr_1 by done.
    rewrite Z.div2_spec, !Z.shiftr_shiftr by lia. f_equal. lia.
  - assert (0 ≤ shr_m (SpecFloat.iter_pos shr_1 n mrs))%Z as H2.
    { rewrite IH by done. apply Z.shiftr_nonneg. done. }
    rewrite IH, IH by done. rewrite !Z.shiftr_shiftr by lia. f_equal. lia.
  - rewrite shr_m_shr_1 by done. by rewrite Z.div2_spec.
Qed.

Lemma digits2_pos_size (p : positive) : digits2_pos p = Pos.size p.
Proof. induction p; simpl; congruence. Qed.

Lemma Zdigits2_log2 (m : Z) : (0 < m)%Z → Zdigits2 m = (Z.log2 m + 1)%Z.
Proof.
  destruct m as [|p|p]; try lia. intros _. simpl. rewrite digits2_pos_size.
  destruct p; simpl; lia.
Qed.

Lemma pos_digits_bounds (m : Z) :
  (0 < m)%Z → (2 ^ (Zdigits2 m - 1) ≤ m < 2 ^ Zdigits2 m)%Z ∧ (1 ≤ Zdigits2 m)%Z.
Proof.
  intros Hm. rewrite Zdigits2_log2 by done.
  pose proof (Z.log2_spec m Hm) as [Hlo Hhi]. pose proof (Z.log2_nonneg m).
  replace (Z.log2 m + 1 - 1)%Z with (Z.log2 m) by lia.
  replace (Z.log2 m + 1)%Z with (Z.succ (Z.log2 m)) by lia. lia.
Qed.

Lemma shiftr_pos (m n : Z) :
  (0 < m)%Z → (0 ≤ n ≤ Zdigits2 m - 1)%Z → (0 < Z.shiftr m n)%Z.
Proof.
  intros Hm Hn. destruct (pos_digits_bounds m Hm) as [[Hlo _] _].
  rewrite Z.shiftr_div_pow2 by lia.
  apply Z.div_str_pos. split; [apply Z.pow_pos_nonneg; lia|].
  etrans; [|exact Hlo]. apply Z.pow_le_mono_r; lia.
Qed.

(** [shr_fexp] on a positive mantissa above the smallest exponent. *)
Lemma shr_fexp_pos (m e : Z) (l : location) :
  (0 < m)%Z → (-1074 ≤ e)%Z →
  (0 < shr_m (shr_fexp 53 1024 m e l).1)%Z ∧ (e ≤ (shr_fexp 53 1024 m e l).2)%Z.
Proof.
  intros Hm He. destruct (pos_digits_bounds m Hm) as [_ Hd].
  unfold shr_fexp, shr, fexp, emin.
  assert (shr_m (shr_record_of_loc m l) = m) as Hrec by (by destruct l as [|[]]).
  destruct (_ - e)%Z as [|n|n] eqn:Hn; simpl; [rewrite Hrec; lia| |rewrite Hrec; lia].
  rewrite shr_m_iter by (rewrite Hrec; lia). rewrite Hrec. split; [|lia].
  apply shiftr_pos; [done|]. lia.
Qed.

Lemma shr_fexp_nonneg (m e : Z) (l : location) :
  (0 ≤ m)%Z → (0 ≤ shr_m (shr_fexp 53 1024 m e l).1)%Z.
Proof.
  intros Hm. unfold shr_fexp, shr.
  assert (shr_m (shr_record_of_loc m l) = m) as Hrec by (by destruct l as [|[]]).
  destruct (_ - e)%Z as [|n|n]; simpl; [rewrite Hrec; lia| |rewrite Hrec; lia].
  rewrite shr_m_iter by (rewrite Hrec; lia). rewrite Hrec. by apply Z.shiftr_nonneg.
Qed.

Lemma round_nearest_even_ge (m : Z) (l : location) : (m ≤ round_nearest_even m l)%Z.
Proof. destruct l as [|[]]; simpl; try lia. destruct (Z.even m); lia. Qed.

(** Rounding a non-negative mantissa gives a zero, a finite number or
    an infinity of the sign asked for, never a NaN. *)
Lemma binary_round_aux_sign (sx : bool) (m e : Z) (l : location) :
  (0 ≤ m)%Z →
  match binary_round_aux 53 1024 sx m e l with
  | S754_zero s | S754_infinity s | S754_finite s _ _ => s = sx
  | S754_nan => False
  end.
Proof.
  intros Hm. unfold binary_round_aux.
  pose proof (shr_fexp_nonneg m e l Hm) as H1.
  destruct (shr_fexp 53 1024 m e l) as [mrs' e']. simpl in H1.
  pose proof (round_nearest_even_ge (shr_m mrs') (loc_of_shr_record mrs')) as H2.
  pose proof (shr_fexp_nonneg (round_nearest_even (shr_m mrs') (loc_of_shr_record mrs'))
                e' loc_Exact ltac:(lia)) as H3.
  destruct (shr_fexp 53 1024 _ e' loc_Exact) as [mrs'' e'']. simpl in H3.
  destruct (shr_m mrs''); [done| |lia]. by destruct (_ <=? _)%Z.
Qed.

(** Rounding a positive mantissa above the smallest exponent gives a
    finite number or an infinity of the sign asked for. *)
Lemma binary_round_aux_pos (sx : bool) (m e : Z) (l : location) :
  (0 < m)%Z → (-1074 ≤ e)%Z →
  match binary_round_aux 53 1024 sx m e l with
  | S754_finite s _ e' => s = sx ∧ (e ≤ e')%Z
  | S754_infinity s => s = sx
  | _ => False
  end.
Proof.
  intros Hm He. unfold binary_round_aux.
  pose proof (shr_fexp_pos m e l Hm He) as [H1 H1e].
  destruct (shr_fexp 53 1024 m e l) as [mrs' e']. simpl in H1, H1e.
  pose proof (round_nearest_even_ge (shr_m mrs') (loc_of_shr_record mrs')) as H2.
  pose proof (shr_fexp_pos (round_nearest_even (shr_m mrs') (loc_of_shr_record mrs'))
                e' loc_Exact ltac:(lia) ltac:(lia)) as [H3 H3e].
  destruct (shr_fexp 53 1024 _ e' loc_Exact) as [mrs'' e'']. simpl in H3, H3e.
  destruct (shr_m mrs''); [lia| |lia]. destruct (_ <=? _)%Z; [|done]. split; [done|lia].
Qed.

Lemma shr_fexp_exponent (m e : Z) (l : location) :
  (shr_fexp 53 1024 m e l).2 = Z.max e (fexp 53 1024 (Zdigits2 m + e)).
Proof.
  unfold shr_fexp, shr. destruct (_ - e)%Z as [|n|n] eqn:Hn; simpl; lia.
Qed.

Lemma shr_fexp_mantissa (m e : Z) (l : location) :
  (0 ≤ m)%Z →
  shr_m (shr_fexp 53 1024 m e l).1 =
    Z.shiftr m (Z.max 0 (fexp 53 1024 (Zdigits2 m + e) - e)).
Proof.
  intros Hm. unfold shr_fexp, shr.
  assert (shr_m (shr_record_of_loc m l) = m) as Hrec by (by destruct l as [|[]]).
  destruct (_ - e)%Z as [|n|n] eqn:Hn; simpl; rewrite ?Hrec; try done.
  rewrite shr_m_iter by (rewrite Hrec; lia). by rewrite Hrec.
Qed.

Lemma Zdigits2_le (a b : Z) : (0 < a ≤ b)%Z → (Zdigits2 a ≤ Zdigits2 b)%Z.
Proof.
  intros H. rewrite !Zdigits2_log2 by lia.
  pose proof (Z.log2_le_mono a b). lia.
Qed.

Lemma Zdigits2_succ (a : Z) : (0 < a)%Z → (Zdigits2 (a + 1) ≤ Zdigits2 a + 1)%Z.
Proof.
  intros H. rewrite !Zdigits2_log2 by lia.
  pose proof (Z.log2_succ_le a). replace (a + 1)%Z with (Z.succ a) by lia. lia.
Qed.

Lemma Zdigits2_shiftr (a n : Z) :
  (0 < a)%Z → (0 ≤ n ≤ Zdigits2 a - 1)%Z → Zdigits2 (Z.shiftr a n) = (Zdigits2 a - n)%Z.
Proof.
  intros Ha Hn. pose proof (shiftr_pos a n Ha Hn).
  rewrite !Zdigits2_log2 in * by lia. rewrite Z.log2_shiftr by lia. lia.
Qed.

Lemma round_nearest_even_le (m : Z) (l : location) : (round_nearest_even m l ≤ m + 1)%Z.
Proof. destruct l as [|[]]; simpl; try lia. destruct (Z.even m); lia. Qed.

(** The exponent of a rounded number, from the number of digits and the
    exponent of what is rounded. *)
Lemma binary_round_aux_exponent (sx : bool) (m e : Z) (l : location) :
  (0 < m)%Z → (-1074 ≤ e)%Z →
  match binary_round_aux 53 1024 sx m e l with
  | S754_finite _ _ e' =>
      (Z.max e (Zdigits2 m + e - 53) ≤ e' ≤ Z.max e (Zdigits2 m + e - 52))%Z ∧
      (e' ≤ 971)%Z
  | S754_infinity _ => (971 < Z.max e (Zdigits2 m + e - 52))%Z
  | _ => False
  end.
Proof.
  intros Hm He. unfold binary_round_aux.
  pose proof (shr_fexp_pos m e l Hm He) as [H1 _].
  pose proof (shr_fexp_exponent m e l) as H1e.
  pose proof (shr_fexp_mantissa m e l ltac:(lia)) as H1m.
  destruct (pos_digits_bounds m Hm) as [_ Hd].
  destruct (shr_fexp 53 1024 m e l) as [mrs' e']. simpl in H1, H1e, H1m.
  set (m1 := shr_m mrs') in *.
  set (m2 := round_nearest_even m1 (loc_of_shr_record mrs')).
  pose proof (round_nearest_even_ge m1 (loc_of_shr_record mrs')) as H2.
  pose proof (round_nearest_even_le m1 (loc_of_shr_record mrs')) as H2'.
  fold m2 in H2, H2'.
  assert (Zdigits2 m1 + e' ≤ Zdigits2 m + e)%Z as Hd1.
  { rewrite H1m, H1e. unfold fexp, emin in *.
    rewrite Zdigits2_shiftr by lia. lia. }
  assert (Zdigits2 m2 + e' ≤ Zdigits2 m + e + 1)%Z as Hd2.
  { pose proof (Zdigits2_le m2 (m1 + 1) ltac:(lia)).
    pose proof (Zdigits2_succ m1 H1). lia. }
  assert (-1074 ≤ e')%Z as He' by lia.
  pose proof (shr_fexp_pos m2 e' loc_Exact ltac:(lia) He') as [H3 _].
  pose proof (shr_fexp_exponent m2 e' loc_Exact) as H3e.
  destruct (shr_fexp 53 1024 m2 e' loc_Exact) as [mrs'' e'']. simpl in H3, H3e.
  destruct (pos_digits_bounds m2 ltac:(lia)) as [_ Hd2'].
  unfold fexp, emin in *.
  destruct (shr_m mrs''); [lia| |lia].
  destruct (e'' <=? 1024 - 53)%Z eqn:Hle; [apply Z.leb_le in Hle|apply Z.leb_gt in Hle].
  all: clearbody m1 m2; clear H1m Hm Hd1 H2 H2' H3 H1.
  all: generalize dependent (Zdigits2 m); generalize dependent (Zdigits2 m2).
  all: intros; lia.
Qed.

Lemma digits2_pos_iter (k p : positive) :
  Zpos (digits2_pos (Pos.iter xO p k)) = (Zpos (digits2_pos p) + Zpos k)%Z.
Proof.
  revert p. induction k as [|k IH] using Pos.peano_ind; intros p.
  - simpl. lia.
  - rewrite Pos.iter_succ. cbn [digits2_pos]. rewrite Pos2Z.inj_succ, IH. lia.
Qed.

(** The exponent that aligning an integer mantissa gives. *)
Lemma shl_align_exponent (p : positive) :
  (-52 ≤ (shl_align p 0 (fexp 53 1024 (Zpos (digits2_pos p) + 0))).2)%Z.
Proof.
  unfold shl_align, fexp, emin.
  destruct (_ - 0)%Z as [|n|n] eqn:Hn; simpl; lia.
Qed.

(** A converted integer other than zero is a finite number of its sign
    whose exponent is at least -52. *)
Lemma binary_round_int (sx : bool) (p : positive) :
  match binary_round 53 1024 sx p 0 with
  | S754_finite s _ e => s = sx ∧ (-52 ≤ e)%Z
  | S754_infinity s => s = sx
  | _ => False
  end.
Proof.
  unfold binary_round. pose proof (shl_align_exponent p) as He.
  destruct (shl_align p 0 _) as [mz ez]. simpl in He.
  pose proof (binary_round_aux_pos sx (Zpos mz) ez loc_Exact ltac:(lia) ltac:(lia)) as Hr.
  destruct (binary_round_aux 53 1024 sx (Z.pos mz) ez loc_Exact); try done.
  split; [tauto|lia].
Qed.

(** What an integer converts to, when it does. *)
Lemma float_of_int_finite (t : Z) (f : float) :
  float_of_int t = Ok f →
  match t with
  | Z0 => f = S754_zero false
  | Zpos _ => ∃ m e, f = S754_finite false m e ∧ (-52 ≤ e)%Z
  | Zneg _ => ∃ m e, f = S754_finite true m e ∧ (-52 ≤ e)%Z
  end.
Proof.
  unfold float_of_int, binary_normalize. destruct t as [|p|p].
  - by intros [= <-].
  - pose proof (binary_round_int false p) as Hr.
    destruct (binary_round 53 1024 false p 0) as [| | |s m e]; try done.
    intros [= <-]. destruct Hr as [-> He]. by exists m, e.
  - pose proof (binary_round_int true p) as Hr.
    destruct (binary_round 53 1024 true p 0) as [| | |s m e]; try done.
    intros [= <-]. destruct Hr as [-> He]. by exists m, e.
Qed.

(** The delay computed from a positive [timeToReset] is positive. *)
Lemma positive_delay (t : Z) (f : float) :
  (0 < t)%Z → float_of_int t = Ok f →
  float_le_0 (SFmul 53 1024 f float_0_001) = false ∧
  SFltb (S754_zero false) (SFmul 53 1024 f float_0_001) = true.
Proof.
  intros Ht Hf. apply float_of_int_finite in Hf.
  destruct t as [|p|p]; try lia. destruct Hf as (m & e & -> & He).
  unfold float_0_001, SFmul. simpl xorb.
  pose proof (binary_round_aux_pos false (Zpos (m * 4611686018427388)) (e + -62) loc_Exact
                ltac:(lia) ltac:(lia)) as Hr.
  destruct (binary_round_aux 53 1024 false _ _ loc_Exact) as [| | |s m' e']; try done.
  - by subst.
  - by destruct Hr as [-> _].
Qed.

(** The delay computed from a [timeToReset] that is not positive is not
    positive either. *)
Lemma no_delay (t : Z) (f : float) :
  (t ≤ 0)%Z → float_of_int t = Ok f →
  float_le_0 (SFmul 53 1024 f float_0_001) = true.
Proof.
  intros Ht Hf. apply float_of_int_finite in Hf.
  destruct t as [|p|p]; try lia; [by subst|]. destruct Hf as (m & e & -> & He).
  unfold float_0_001, SFmul. simpl xorb.
  pose proof (binary_round_aux_sign true (Zpos (m * 4611686018427388)) (e + -62) loc_Exact
                ltac:(lia)) as Hr.
  destruct (binary_round_aux 53 1024 true _ _ loc_Exact) as [| | |s m' e']; try done; by subst.
Qed.

(** The integers that convert, and those that do not: every integer
    below 2^1023 in absolute value has a double, none from 2^1024 on has
    one. *)
Lemma float_of_int_converts (t : Z) :
  (Z.abs t < 2 ^ 1023)%Z → ∃ f, float_of_int t = Ok f.
Proof.
  intros Ht. unfold float_of_int, binary_normalize.
  destruct t as [|p|p]; [by eexists|..].
  all: unfold binary_round.
  all: change (Z.abs _) with (Zpos p) in Ht.
  all: apply Z.log2_lt_pow2 in Ht; [|done].
  all: assert (Zpos (digits2_pos p) ≤ 1023)%Z as Hd by
    (pose proof (Zdigits2_log2 (Zpos p) eq_refl) as Hl; cbn [Zdigits2] in Hl; rewrite Hl; lia).
  all: unfold shl_align, fexp, emin.
  all: destruct (_ - 0)%Z as [|n|n] eqn:Hn.
  all: match goal with |- context [binary_round_aux 53 1024 ?s ?m ?e ?l] =>
         pose proof (binary_round_aux_exponent s m e l ltac:(lia) ltac:(lia)) as Hr;
         destruct (binary_round_aux 53 1024 s m e l) eqn:Hb; try done; try by eexists
       end.
  all: exfalso; revert Hr; simpl Zdigits2; rewrite ?digits2_pos_iter; lia.
Qed.

Lemma float_of_int_overflows (t : Z) :
  (2 ^ 1024 ≤ Z.abs t)%Z → float_of_int t = Raise OverflowError.
Proof.
  intros Ht. unfold float_of_int, binary_normalize.
  destruct t as [|p|p]; [by apply Z.le_ngt in Ht|..].
  all: unfold binary_round.
  all: change (Z.abs _) with (Zpos p) in Ht.
  all: apply Z.log2_le_pow2 in Ht; [|done].
  all: assert (1025 ≤ Zpos (digits2_pos p))%Z as Hd by
    (pose proof (Zdigits2_log2 (Zpos p) eq_refl) as Hl; cbn [Zdigits2] in Hl; rewrite Hl; lia).
  all: unfold shl_align, fexp, emin.
  all: destruct (_ - 0)%Z as [|n|n] eqn:Hn; try lia.
  all: match goal with |- context [binary_round_aux 53 1024 ?s ?m ?e ?l] =>
         pose proof (binary_round_aux_exponent s m e l ltac:(lia) ltac:(lia)) as Hr;
         destruct (binary_round_aux 53 1024 s m e l) eqn:Hb; try done
       end.
  all: exfalso; revert Hr; simpl Zdigits2; lia.
Qed.

(** ** Relations that every step of a method keeps *)

Global Instance same_preorder {C} (p : World → C) : PreOrder (same p).
Proof. split; [by intros ?|]. intros x y z Hxy Hyz. unfold same in *. congruence. Qed.

Section Keeps.
Context (R : relation World) `{!PreOrder R}.

Lemma keeps_ret {A} (a : A) : keeps R (mret a).
Proof. by intros w. Qed.

Lemma keeps_raise {A} (e : exn) : keeps R (raise (A:=A) e).
Proof. by intros w. Qed.

Lemma keeps_lift {A} (r : res A) : keeps R (lift r).
Proof. by intros w. Qed.

Lemma keeps_get : keeps R get.
Proof. by intros w. Qed.

Lemma keeps_modify (f : World → World) : (∀ w, R w (f w)) → keeps R (modify f).
Proof. intros Hf w. apply Hf. Qed.

Lemma keeps_bind {A B} (m : M A) (k : A → M B) :
  keeps R m → (∀ a, keeps R (k a)) → keeps R (m ≫= k).
Proof.
  intros Hm Hk w. unfold mbind, M_bind. specialize (Hm w).
  destruct (m w) as [[a|e] w1]; simpl in *; [|done].
  by etrans; [|apply Hk].
Qed.

Lemma keeps_for_each {A} (f : A → M unit) (l : list A) :
  (∀ x, keeps R (f x)) → keeps R (for_each f l).
Proof.
  intros Hf. induction l as [|x l IH]; simpl; [apply keeps_ret|].
  apply keeps_bind; [apply Hf | by intros _].
Qed.

Lemma keeps_try_except_ValueError {A} (m handler : M A) :
  keeps R m → keeps R handler → keeps R (try_except_ValueError m handler).
Proof.
  intros Hm Hh w. unfold try_except_ValueError. specialize (Hm w).
  destruct (m w) as [[a|[]] w1]; simpl in *; try done.
  by etrans; [|apply Hh].
Qed.

Lemma keeps_try_except_ServerException {A} (m : M A) (handler : string → pyval → pyval → M A) :
  keeps R m → (∀ a b c, keeps R (handler a b c)) →
  keeps R (try_except_ServerException m handler).
Proof.
  intros Hm Hh w. unfold try_except_ServerException. specialize (Hm w).
  destruct (m w) as [[a|[]] w1]; simpl in *; try done.
  by etrans; [|apply Hh].
Qed.

Lemma keeps_on_holder (f : AsyncHolder → res unit * AsyncHolder) :
  (∀ g w, R w (set_holder g w)) → keeps R (on_holder f).
Proof.
  intros Hs w. unfold on_holder. destruct (f (_holder w)) as [r h]. apply Hs.
Qed.

End Keeps.

(** One step of a proof of [keeps]: through the monad, and by cases on
    the value a method branches on. *)
Ltac keeps_step :=
  lazymatch goal with
  | |- keeps _ (mret _) => apply keeps_ret; try apply _
  | |- keeps _ (raise _) => apply keeps_raise; try apply _
  | |- keeps _ (lift _) => apply keeps_lift; try apply _
  | |- keeps _ get => apply keeps_get; try apply _
  | |- keeps _ (_ ≫= _) => apply keeps_bind; [apply _ | | intros ?]
  | |- keeps _ (for_each _ _) => apply keeps_for_each; [apply _ | intros ?]
  | |- keeps _ (try_except_ValueError _ _) =>
      apply keeps_try_except_ValueError; [apply _ | |]
  | |- keeps _ (try_except_ServerException _ _) =>
      apply keeps_try_except_ServerException; [apply _ | | intros ? ? ?]
  | |- keeps _ (match ?x with _ => _ end) => destruct x
  | |- keeps _ (let '(_, _) := ?x in _) => destruct x
  end.

Section Properties.
Context `{Env}.

(** ** The registry *)

Lemma callbacks_getitem_spec (name : string) (w : World) :
  ∃ w', callbacks_getitem name w = (Ok (listeners w name), w') ∧
        callbacks w' = <[name := listeners w name]> (callbacks w) ∧
        w' = set_callbacks (λ _, callbacks w') w.
Proof.
  unfold callbacks_getitem, listeners, mbind, M_bind, get, mret, M_ret, modify.
  destruct (callbacks w !! name) as [l|] eqn:E; simpl.
  - exists w. split_and!; [done| by rewrite insert_id | by destruct w].
  - eexists. split_and!; [done..|]. by destruct w.
Qed.

Lemma listeners_insert (name n : string) (l : list callback) (w : World) (m : gmap string (list callback)) :
  callbacks w = <[name := l]> m →
  listeners w n = if decide (name = n) then l else default [] (m !! n).
Proof.
  intros E. unfold listeners. rewrite E, lookup_insert. by case_decide.
Qed.

(** [C6].  [del_cb] never raises.  When the callback is not registered
    under the name it returns [False] and every listener list reads as
    before.  When it is registered, [del_cb] returns [True], the list of
    that name loses the first occurrence of the callback and nothing
    else, and the lists of all other names read as before. *)
Theorem del_cb_spec (name : string) (cb : callback) (w : World) :
  (cb ∉ listeners w name →
     ∃ w', del_cb name cb w = (Ok false, w') ∧
           ∀ n, listeners w' n = listeners w n) ∧
  (cb ∈ listeners w name →
     ∃ w' l1 l2, del_cb name cb w = (Ok true, w') ∧
                 listeners w name = l1 ++ cb :: l2 ∧ (cb ∉ l1) ∧
                 listeners w' name = l1 ++ l2 ∧
                 ∀ n, n ≠ name → listeners w' n = listeners w n).
Proof.
  destruct (callbacks_getitem_spec name w) as (w1 & Hget & Hcb & Hw1).
  split; intros Hin.
  - exists w1. unfold del_cb, try_except_ValueError, mbind, M_bind.
    rewrite Hget, (list_remove_None _ _ Hin). split; [done|].
    intros n. rewrite (listeners_insert _ _ _ _ _ Hcb).
    case_decide; by subst.
  - destruct (list_remove_Some _ _ Hin) as (l1 & l2 & Hl & Hl1 & Hrm).
    exists (set_callbacks (λ m, <[name := l1 ++ l2]> m) w1), l1, l2.
    unfold del_cb, try_except_ValueError, mbind, M_bind.
    rewrite Hget, Hrm. split_and!; [done..| |].
    + unfold listeners. simpl. by rewrite lookup_insert_eq.
    + intros n Hn. unfold listeners at 1. simpl. rewrite lookup_insert_ne by done.
      fold (listeners w1 n). rewrite (listeners_insert _ _ _ _ _ Hcb).
      case_decide; by subst.
Qed.

(** ** What [event] queues *)

Lemma event_loop_spec (fid : nat) (data : pyval) (l : list callback) :
  ∀ (w : World) (fs : list frame) (c : option callback),
    frames w = fs ++ [{| cell_cb := c; cell_data := data |}] →
    fid = length fs →
    for_each (event_iter fid data) l w =
      (Ok (),
       set_ready (λ r, r ++ map (queued fid data) l)
         (set_frames (λ _, fs ++ [{| cell_cb := from_option Some c (last l);
                                    cell_data := data |}]) w)).
Proof.
  induction l as [|cb l IH]; intros w fs c Hfs ->.
  - destruct w; simpl in *; subst. unfold set_ready, set_frames; simpl.
    by rewrite app_nil_r.
  - cbn [for_each]. unfold mbind, M_bind.
    assert (event_iter (length fs) data cb w =
            (Ok (), set_ready (λ r, r ++ [queued (length fs) data cb])
                      (set_frames (λ _, fs ++ [{| cell_cb := Some cb; cell_data := data |}]) w)))
      as ->.
    { unfold event_iter, queued, mbind, M_bind, modify, call_soon, modify.
      destruct w; simpl in *; subst.
      destruct (is_coroutine cb); unfold set_ready, set_frames; simpl;
        rewrite insert_app_r_alt by lia; by rewrite Nat.sub_diag. }
    rewrite (IH _ fs (Some cb)); [|done..].
    rewrite last_cons. f_equal.
    destruct w; unfold set_ready, set_frames; simpl. f_equal.
    + by rewrite <-app_assoc.
    + by destruct (last l).
Qed.

(** [event] in closed form: the registry holds the name, one frame is
    added whose cell [cb] ends on the last listener, and one handle per
    listener is queued, in the order of the list. *)
Lemma event_spec (name : string) (data : pyval) (w : World) :
  event name data w =
    (Ok (),
     set_ready (λ r, r ++ map (queued (length (frames w)) data) (listeners w name))
       (set_frames (λ fs, fs ++ [{| cell_cb := last (listeners w name);
                                   cell_data := data |}])
          (set_callbacks (λ m, <[name := listeners w name]> m) w))).
Proof.
  destruct (callbacks_getitem_spec name w) as (w1 & Hget & Hcb & Hw1).
  unfold event, mbind at 1, M_bind at 1. rewrite Hget.
  unfold mbind, M_bind, get, modify.
  rewrite (event_loop_spec _ _ _ _ (frames w1) None); cycle 1.
  { done. }
  { rewrite Hw1. done. }
  rewrite Hw1, Hcb. f_equal.
  destruct w; unfold set_ready, set_frames, set_callbacks; simpl.
  by destruct (last _).
Qed.

(** ** What scheduling leaves alone *)

Global Instance frames_prefix_preorder : PreOrder frames_prefix.
Proof.
  split.
  - intros w. by unfold frames_prefix.
  - intros x y z Hxy Hyz. unfold frames_prefix in *. by etrans.
Qed.

Ltac solve_rel :=
  intros;
  lazymatch goal with
  | |- ?R ?w _ =>
      unfold stop_setter, put_nowait, frames_prefix, same; destruct w; simpl;
      repeat case_match;
      first [ reflexivity | by apply prefix_app_r ]
  end.

Lemma keeps_event (R : relation World) `{!PreOrder R} (name : string) (data : pyval) :
  (∀ f w, R w (set_ready f w)) →
  (∀ f w, R w (set_callbacks f w)) →
  (∀ l w, R w (set_frames (λ fs, fs ++ l) w)) →
  keeps R (event name data).
Proof.
  intros Hr Hc Hf w. rewrite event_spec. simpl.
  etrans; [apply Hc|]. etrans; [apply Hf|]. apply Hr.
Qed.

Ltac keeps_auto :=
  repeat first
    [ keeps_step
    | lazymatch goal with
      | |- keeps _ (event _ _) => apply keeps_event; [apply _ | solve_rel..]
      | |- keeps _ (modify _) => apply keeps_modify; solve_rel
      | |- keeps _ (on_holder _) => apply keeps_on_holder; solve_rel
      end
    | progress unfold EventClient_do_connect, ensure_future_do_connect, on_result,
        connect, send_msg, api_send_pong, add_cb, del_cb, callbacks_getitem,
        call_soon, log, sleep, login, login_resume, EventClient_parse, changed ].

Lemma dispatch_queue (msg : pyval) (ty : RawMessageType) :
  keeps (same _queue) (dispatch msg ty).
Proof. unfold dispatch. keeps_auto. Qed.

Lemma dispatch_stop (msg : pyval) (ty : RawMessageType) :
  keeps (same _stop) (dispatch msg ty).
Proof. unfold dispatch. keeps_auto. Qed.

Lemma dispatch_trace (msg : pyval) (ty : RawMessageType) :
  keeps (same trace) (dispatch msg ty).
Proof. unfold dispatch. keeps_auto. Qed.

(** ** The handler loop *)

Lemma route_queue (msg : pyval) : keeps (same _queue) (route msg).
Proof.
  unfold route. destruct (negb (truthy msg)); [keeps_auto|].
  apply keeps_bind; [apply _| keeps_auto |intros _; apply dispatch_queue].
Qed.

(** The only trace that routing leaves is the call of the classifier,
    and only a message that is not falsy is handed to it. *)
Lemma route_trace (msg : pyval) (w : World) :
  trace (route msg w).2 = trace w ++ (if truthy msg then [Classified msg] else []).
Proof.
  unfold route. destruct (truthy msg); simpl; [|by rewrite app_nil_r].
  unfold mbind, M_bind, log, modify.
  pose proof (dispatch_trace msg (msg_type msg)
                (set_trace (λ t, t ++ [Classified msg]) w)) as Hd.
  unfold same in Hd. by destruct w.
Qed.

(** A falsy message is dropped on the spot. *)
Lemma route_falsy (msg : pyval) (w : World) :
  truthy msg = false → route msg w = (Ok (), w).
Proof. intros Hf. unfold route. by rewrite Hf. Qed.

(** The fuel of [handler_resume] is enough: the loop returns, blocks or
    is left by an exception. *)
Lemma queue_get_fuel (fuel : nat) :
  ∀ w, length (_queue w) < fuel → (queue_get fuel w).1 ≠ OutOfFuel.
Proof.
  induction fuel as [|fuel IH]; intros w Hlen; [lia|].
  simpl. destruct (_queue w) as [|msg q] eqn:Hq; [done|].
  pose proof (route_queue msg (set_queue (λ _, q) w)) as Hrq. unfold same in Hrq.
  destruct (route msg (set_queue (λ _, q) w)) as [[[]|e] w'] eqn:Hr; [|done].
  destruct (stop w'); [done|]. apply IH.
  simpl in *. rewrite Hrq. destruct w; simpl in *. subst. simpl in Hlen. lia.
Qed.

Lemma handler_loop_total (w : World) : (handler_loop w).1 ≠ OutOfFuel.
Proof.
  unfold handler_loop, handler_resume. destruct (stop w); [done|].
  apply queue_get_fuel. lia.
Qed.

(** Whatever the loop does, it classifies only messages that are not
    falsy, and leaves no other trace. *)
Lemma queue_get_classifies (fuel : nat) :
  ∀ w, ∃ ms, trace (queue_get fuel w).2 = trace w ++ map Classified ms ∧
             Forall (λ m, truthy m = true) ms.
Proof.
  induction fuel as [|fuel IH]; intros w.
  { exists []. by rewrite app_nil_r. }
  simpl. destruct (_queue w) as [|msg q] eqn:Hq.
  { exists []. by rewrite app_nil_r. }
  pose proof (route_trace msg (set_queue (λ _, q) w)) as Ht.
  assert (trace (set_queue (λ _, q) w) = trace w) as Hw by (by destruct w).
  rewrite Hw in Ht. clear Hw.
  assert (∃ ms0, trace (route msg (set_queue (λ _, q) w)).2 = trace w ++ map Classified ms0 ∧
                 Forall (λ m, truthy m = true) ms0) as (ms0 & Ht0 & Hms0).
  { destruct (truthy msg) eqn:Hm.
    - exists [msg]. split; [done|]. by constructor.
    - exists []. split; [done|]. constructor. }
  clear Ht.
  destruct (route msg (set_queue (λ _, q) w)) as [[[]|e] w'] eqn:Hr; simpl in *.
  - destruct (stop w'); [by exists ms0|].
    destruct (IH w') as (ms & Hms & HF). exists (ms0 ++ ms).
    rewrite Hms, Ht0, map_app, app_assoc. split; [done|]. by apply Forall_app.
  - by exists ms0.
Qed.

Lemma put_nowait_many (later : list pyval) :
  ∀ w, foldl (λ w m, put_nowait m w) w later = set_queue (λ q, q ++ later) w.
Proof.
  induction later as [|m later IH]; intros w; simpl.
  - destruct w; unfold set_queue; simpl. by rewrite app_nil_r.
  - rewrite IH. destruct w; unfold put_nowait, set_queue; simpl.
    by rewrite <-app_assoc.
Qed.

(** [C3].  Assigning a truthy value to [Client.stop] sets the flag and
    puts the sentinel [None] in the queue.  A [handler_loop] that was
    blocked on the empty queue then wakes on the sentinel and returns:
    the sentinel is consumed, the messages that arrived after it stay in
    the queue, and nothing else of the client has changed, so neither the
    sentinel nor a later message was routed. *)
Theorem stop_wakes_blocked_loop (value : pyval) (later : list pyval) (w : World) :
  truthy value = true →
  _queue w = [] →
  handler_resume w = (Blocked, w) ∧
  _stop (stop_setter value w) = true ∧
  _queue (stop_setter value w) = [PNone] ∧
  handler_resume (foldl (λ w m, put_nowait m w) (stop_setter value w) later) =
    (Returned, set_queue (λ _, later) (set_stop true w)).
Proof.
  intros Hv Hq. unfold stop_setter. rewrite Hv. split_and!.
  - unfold handler_resume. simpl. by rewrite Hq.
  - done.
  - simpl. by rewrite Hq.
  - rewrite put_nowait_many. unfold handler_resume. simpl. rewrite Hq. simpl.
    by destruct w.
Qed.

Lemma route_same_stop (msg : pyval) : keeps (same _stop) (route msg).
Proof.
  unfold route. destruct (negb (truthy msg)); [keeps_auto|].
  apply keeps_bind; [apply _| keeps_auto |intros _; apply dispatch_stop].
Qed.

(** [C9], as the code has it.  A falsy message taken off the queue is
    skipped: routing it does nothing at all.  The loop then tests the
    stop flag again.  With the flag set, as it is when the sentinel of
    the setter arrives, the loop returns and the rest of the queue stays
    where it is.  With the flag clear the loop goes on to the next
    element, waiting if there is none.  Over the whole run the classifier
    is only ever called on messages that are not falsy, so never on the
    sentinel. *)
Theorem falsy_message_is_skipped (msg : pyval) (q : list pyval) (w : World) :
  truthy msg = false →
  _queue w = msg :: q →
  route msg (set_queue (λ _, q) w) = (Ok (), set_queue (λ _, q) w) ∧
  handler_resume w =
    (if _stop w then (Returned, set_queue (λ _, q) w)
     else match q with
          | [] => (Blocked, set_queue (λ _, []) w)
          | next :: q' =>
              match route next (set_queue (λ _, q') w) with
              | (Ok _, w') => handler_resume w'
              | (Raise e, w') => (Crashed e, w')
              end
          end) ∧
  handler_loop w = (if _stop w then (Returned, w) else handler_resume w) ∧
  ∃ ms, trace (handler_resume w).2 = trace w ++ map Classified ms ∧
        Forall (λ m, truthy m = true) ms ∧ (msg ∉ ms) ∧ (PNone ∉ ms).
Proof.
  intros Hf Hq. split_and!.
  - by apply route_falsy.
  - unfold handler_resume. rewrite Hq. cbn [length queue_get].
    rewrite Hq, (route_falsy _ _ Hf). unfold stop. cbn [_stop set_queue].
    destruct (_stop w) eqn:Hs; [done|].
    destruct q as [|next q']; [done|]. cbn [length queue_get _queue set_queue].
    assert (set_queue (λ _, q') (set_queue (λ _, next :: q') w) = set_queue (λ _, q') w)
      as -> by (by destruct w).
    pose proof (route_queue next (set_queue (λ _, q') w)) as Hrq.
    pose proof (route_same_stop next (set_queue (λ _, q') w)) as Hrs.
    unfold same in Hrq, Hrs.
    destruct (route next (set_queue (λ _, q') w)) as [[[]|e] w'] eqn:Hr; [|done].
    simpl in Hrq, Hrs. unfold stop. rewrite Hrs. cbn [_stop set_queue]. rewrite Hs.
    by rewrite Hrq.
  - done.
  - destruct (queue_get_classifies (S (length (_queue w))) w) as (ms & Ht & HF).
    exists ms. unfold handler_resume. split_and!; [done..| |].
    + intros Hin. rewrite Forall_forall in HF. apply HF in Hin. congruence.
    + intros Hin. rewrite Forall_forall in HF. by apply HF in Hin.
Qed.

(** [C10].  Assigning a falsy value to [Client.stop] changes nothing:
    the flag keeps its value and nothing is put in the queue.  After any
    sequence of assignments the flag is set exactly when it was set
    before or one of the values was truthy, so no assignment clears it. *)
Theorem stop_flag_is_monotone (value : pyval) (values : list pyval) (w : World) :
  truthy value = false →
  stop_setter value w = w ∧
  _stop (foldl (λ w v, stop_setter v w) w values) = _stop w || existsb truthy values.
Proof.
  intros Hf. split; [unfold stop_setter; by rewrite Hf|].
  clear Hf. revert w. induction values as [|v values IH]; intros w; simpl.
  - by rewrite orb_false_r.
  - rewrite IH. unfold stop_setter. destruct (truthy v); simpl; [|done].
    by rewrite orb_true_r.
Qed.

(** ** Unrecognized kinds *)


(** ** Login *)

(** [C7], as the code has it.  When the awaited login call returns a
    result with the keys [token], [expires] and [user_id], [login] stores
    them in [ClientData.token], [ClientData.token_expires] and
    [ClientData.user_id] and returns the result; [server], [username],
    [password] and [ClientData.session] keep their values, as does the
    rest of the client. *)
Theorem login_captures_token_expiry_user_id (res tok expires uid : pyval) (w : World) :
  getitem res "token" = Ok tok →
  getitem res "expires" = Ok expires →
  getitem res "user_id" = Ok uid →
  login_resume res w =
    (Ok res,
     set_data (λ d, {| server := server d; username := username d;
                       password := password d; token := tok;
                       session := session d; user_id := uid;
                       token_expires := expires |}) w).
Proof.
  intros Ht He Hu. unfold login_resume, mbind, M_bind, lift, modify, mret, M_ret.
  rewrite Ht, He, Hu. by destruct w.
Qed.

(** ** Server errors *)

(** [C2], as the code has it.  [OverrideClient.on_error] receives an
    error of the kind TOO_MANY_REQUESTS whose result holds, under
    [error.details], a [timeToReset] that [int] turns into a positive
    integer which converts to a float, and a recover message with a room
    id and a text.  Its task goes to sleep for
    [float(timeToReset) * 0.001] seconds, the rounded product of two
    doubles, which is positive, and does nothing else: nothing is sent
    yet and the holder, hence every caller's slot, is untouched.  When
    the sleep is over the task queues one [send_message] with that room
    id and that text, and again does nothing else. *)
Theorem too_many_requests_resends_once
    (error_result recover_message e d v rid text : pyval) (t : Z) (f : float) (w : World) :
  cls w = OverrideClientK →
  getitem error_result "error" = Ok e →
  getitem e "details" = Ok d →
  getitem d "timeToReset" = Ok v →
  py_int int_of_str v = Ok t →
  (0 < t)%Z →
  float_of_int t = Ok f →
  getitem recover_message "rid" = Ok rid →
  getitem recover_message "msg" = Ok text →
  SFltb (S754_zero false)
        (SFmul 53 1024 f (S754_finite false 4611686018427388 (-62))) = true ∧
  run_handle (HOnError TOO_MANY_REQUESTS error_result recover_message) w =
    (Ok (),
     set_waiting
       (λ l, l ++ [(Timer (SFmul 53 1024 f (S754_finite false 4611686018427388 (-62))),
                    KTooManyRequests recover_message)]) w) ∧
  ∀ w', run_handle (HResume (KTooManyRequests recover_message) PNone) w' =
          (Ok (), set_ready (λ r, r ++ [HExtern (send_message rid text)]) w').
Proof.
  intros Hcls He Hd Hv Ht Hpos Hf Hrid Htext.
  destruct (positive_delay t f Hpos Hf) as [Hle Hlt]. split_and!.
  - exact Hlt.
  - unfold run_handle, mbind, M_bind, get. rewrite Hcls.
    unfold on_error. rewrite String.eqb_refl.
    unfold on_too_many_requests, mbind, M_bind, lift.
    rewrite He, Hd, Hv, Ht. unfold int_mul_float. rewrite Hf.
    unfold sleep. by rewrite Hle.
  - intros w'. unfold run_handle, on_too_many_requests_resume, mbind, M_bind, lift.
    by rewrite Hrid, Htext.
Qed.

(** [C5].  A [Result] message that carries an error of a kind other than
    TOO_MANY_REQUESTS for a pending call: [on_result] fills the caller's
    slot with the failure (its kind, the raw message and the caller's
    request) and spawns [on_error]; for an [OverrideClient] that task
    returns at once and leaves everything as it was, so nothing is sent
    again and no task sleeps. *)
Theorem other_errors_surface_without_retry
    (msg err request : pyval) (id : string) (w : World) :
  getitem msg "id" = Ok (PStr id) →
  dict_get msg "error" = Ok (Some err) →
  pending (_holder w) !! id = Some request →
  error_kind err ≠ TOO_MANY_REQUESTS →
  ∃ w1,
    on_result msg w = (Ok (), w1) ∧
    delivered (_holder w1) =
      delivered (_holder w) ++
        [(id, Failure {| errorKind := error_kind err; rawErrorPayload := msg;
                         originalRequestPayload := request |})] ∧
    ready w1 = ready w ++ [HOnError (error_kind err) msg request] ∧
    trace w1 = trace w ∧ waiting w1 = waiting w ∧
    ∀ w', cls w' = OverrideClientK →
          run_handle (HOnError (error_kind err) msg request) w' = (Ok (), w').
Proof.
  intros Hid Herr Hpend Hkind. eexists. split_and!.
  - unfold on_result, try_except_ServerException, on_holder, recv_result.
    rewrite Hid, Herr, Hpend. unfold resolveFailure, resolve. rewrite Hpend.
    reflexivity.
  - done.
  - done.
  - done.
  - done.
  - intros w' Hcls. unfold run_handle, mbind, M_bind, get. rewrite Hcls.
    unfold on_error. apply String.eqb_neq in Hkind. by rewrite Hkind.
Qed.

(** ** The closure cells of a fire pass *)

(** No turn of the loop and no call of the application touches a frame
    that exists: frames are only added. *)
Lemma exec_frames (s : stmt) : keeps frames_prefix (exec s).
Proof. unfold exec. keeps_auto. Qed.

Lemma run_handle_frames (h : handle) : keeps frames_prefix (run_handle h).
Proof.
  unfold run_handle, call, invoke, OverrideClient_parse, on_changed, on_notify_user,
    on_room_message, on_error, on_too_many_requests, on_too_many_requests_resume.
  keeps_auto; apply exec_frames.
Qed.

Lemma run_once_frames (w : World) : frames_prefix w (run_once w).
Proof.
  unfold run_once. destruct (ready w) as [|h r] eqn:Hr; [done|].
  pose proof (run_handle_frames h (set_ready (λ _, r) w)) as Hh.
  destruct (run_handle h (set_ready (λ _, r) w)) as [[[]|e] w']; simpl in Hh.
  - etrans; [|exact Hh]. unfold frames_prefix. by destruct w.
  - etrans; [|etrans; [exact Hh|]]; unfold frames_prefix; [by destruct w | by destruct w'].
Qed.

Lemma run_frames (n : nat) : ∀ w, frames_prefix w (run n w).
Proof.
  induction n as [|n IH]; intros w; simpl; [done|].
  etrans; [apply run_once_frames | apply IH].
Qed.

(** A lambda calls whatever its frame's cell holds when it runs. *)
Lemma lambda_reads_cell (fid : nat) (cb : callback) (d : pyval) (w w' : World) :
  frames w !! fid = Some {| cell_cb := Some cb; cell_data := d |} →
  frames_prefix w w' →
  run_handle (HLambda fid) w' = call cb d w'.
Proof.
  intros Hf Hp. unfold run_handle, mbind, M_bind, get.
  by rewrite (prefix_lookup_Some _ _ _ _ Hf Hp).
Qed.

(** The listeners that a fire pass will reach are settled when [event]
    returns: every lambda it queued calls the last listener of the list
    as it was then, whatever is registered or removed before the lambda
    runs.  (The handles of coroutine functions carry their listener.) *)
Lemma fire_pass_is_settled (name : string) (data : pyval) (l : list callback)
    (cb : callback) (w : World) :
  listeners w name = l ++ [cb] →
  let w1 := (event name data w).2 in
  ready w1 = ready w ++ map (queued (length (frames w)) data) (l ++ [cb]) ∧
  ∀ w', frames_prefix w1 w' →
        run_handle (HLambda (length (frames w))) w' = call cb data w'.
Proof.
  intros Hl. rewrite event_spec, Hl. simpl. split; [done|].
  intros w' Hp. eapply lambda_reads_cell; [|exact Hp].
  simpl. rewrite last_snoc. by rewrite lookup_app_r, Nat.sub_diag by lia.
Qed.

(** Coroutine functions are not reached through a cell: when every
    listener under the name is one, [event] queues one task per listener,
    each bound to its own listener, in the order of registration. *)
Lemma event_coroutines_in_order (name : string) (data : pyval) (w : World) :
  Forall (λ cb, is_coroutine cb = true) (listeners w name) →
  ready (event name data w).2 =
    ready w ++ map (λ cb, HCoroutine cb data) (listeners w name).
Proof.
  intros Hall. rewrite event_spec. simpl. f_equal.
  apply map_ext_Forall. eapply Forall_impl; [exact Hall|].
  intros cb Hcb. unfold queued. by rewrite Hcb.
Qed.

End Properties.

(** * Further properties of the code *)

Lemma list_remove_snoc {A} `{EqDecision A} (x : A) (l : list A) :
  x ∉ l → list_remove x (l ++ [x]) = Some l.
Proof.
  induction l as [|y l IH]; intros Hx; simpl.
  - by rewrite decide_True.
  - apply not_elem_of_cons in Hx as [Hne Hx].
    rewrite decide_False by done. by rewrite IH.
Qed.

Section Registry.
Context `{Env}.

(** [add_cb] in closed form. *)
Lemma add_cb_spec (name : string) (cb : callback) (w : World) :
  add_cb name cb w =
    (Ok (), set_callbacks (λ m, <[name := (listeners w name ++ [cb])]> m) w).
Proof.
  destruct (callbacks_getitem_spec name w) as (w1 & Hget & Hcb & Hw1).
  unfold add_cb, mbind, M_bind. rewrite Hget. unfold modify. f_equal.
  rewrite Hw1, Hcb. destruct w; unfold set_callbacks; simpl.
  by rewrite insert_insert_eq.
Qed.

(** [del_cb] in closed form. *)
Lemma del_cb_eq (name : string) (cb : callback) (w : World) :
  del_cb name cb w =
    match list_remove cb (listeners w name) with
    | Some l' => (Ok true, set_callbacks (λ m, <[name := l']> m) w)
    | None => (Ok false, set_callbacks (λ m, <[name := listeners w name]> m) w)
    end.
Proof.
  destruct (callbacks_getitem_spec name w) as (w1 & Hget & Hcb & Hw1).
  unfold del_cb, try_except_ValueError, mbind, M_bind. rewrite Hget.
  destruct (list_remove cb (listeners w name)) as [l'|]; simpl.
  - unfold modify, mbind, M_bind, mret, M_ret. f_equal.
    rewrite Hw1, Hcb. destruct w; unfold set_callbacks; simpl.
    by rewrite insert_insert_eq.
  - unfold mret, M_ret. f_equal. rewrite Hw1, Hcb. by destruct w.
Qed.

Lemma listeners_set_insert (name n : string) (l : list callback) (w : World) :
  listeners (set_callbacks (λ m, <[name := l]> m) w) n =
    if decide (name = n) then l else listeners w n.
Proof. unfold listeners. simpl. rewrite lookup_insert. by case_decide. Qed.

(** [X1].  Registering a callback under a name where it is not yet
    registered and removing it again gives back the registry: [del_cb]
    returns [True], every listener list reads as before the [add_cb],
    and nothing but the registry has been touched. *)
Theorem add_cb_then_del_cb (name : string) (cb : callback) (w : World) :
  cb ∉ listeners w name →
  ∃ w', del_cb name cb (add_cb name cb w).2 = (Ok true, w') ∧
        (∀ n, listeners w' n = listeners w n) ∧
        w' = set_callbacks (λ _, callbacks w') w.
Proof.
  intros Hnew. rewrite add_cb_spec. simpl. rewrite del_cb_eq.
  rewrite listeners_set_insert, decide_True by done.
  rewrite (list_remove_snoc _ _ Hnew). eexists. split_and!; [done| |].
  - intros n. rewrite !listeners_set_insert. by case_decide; subst.
  - by destruct w.
Qed.

(** [X2].  A listener registered with [add_cb] is reached by the next
    [event] on its name after all the listeners that were there: the
    handles queued are those of the former listeners, in their order,
    followed by one handle for the new one. *)
Theorem event_after_add_cb (name : string) (cb : callback) (payload : pyval) (w : World) :
  ready (event name payload (add_cb name cb w).2).2 =
    ready w ++ map (queued (length (frames w)) payload) (listeners w name)
            ++ [queued (length (frames w)) payload cb].
Proof.
  rewrite add_cb_spec, event_spec. simpl.
  rewrite listeners_set_insert, decide_True by done. by rewrite map_app.
Qed.

(** [X3].  [event] only schedules.  It returns without raising; when it
    returns no listener has run and nothing has been sent (the trace is
    as before), the inbound queue, the stop flag, the holder, the client
    data and the suspended tasks are untouched, every listener list
    reads as before, and the ready queue has grown at its end by exactly
    one handle per listener registered under the name. *)
Theorem event_only_schedules (name : string) (payload : pyval) (w : World) :
  ∃ w' hs,
    event name payload w = (Ok (), w') ∧
    trace w' = trace w ∧ _queue w' = _queue w ∧ _stop w' = _stop w ∧
    _holder w' = _holder w ∧ data w' = data w ∧ waiting w' = waiting w ∧
    (∀ n, listeners w' n = listeners w n) ∧
    ready w' = ready w ++ hs ∧ length hs = length (listeners w name).
Proof.
  rewrite event_spec. eexists _, _. split_and!; try done.
  - intros n. unfold listeners at 1. simpl. rewrite lookup_insert.
    case_decide; by subst.
  - by rewrite length_map.
Qed.

End Registry.

(** ** Dispatch, one turn of the loop at a time *)

Section Dispatch.
Context `{Env}.

Lemma event_grows (name : string) (d : pyval) (w : World) :
  ∃ w' hs, event name d w = (Ok (), w') ∧ trace w' = trace w ∧
           ready w' = ready w ++ hs ∧ frames_prefix w w'.
Proof.
  rewrite event_spec. eexists _, _. split_and!; try done.
  unfold frames_prefix. simpl. by apply prefix_app_r.
Qed.

(** A statement of an application callback returns, leaves the trace
    alone, adds handles at the end of the ready queue at most, and keeps
    the frames there are. *)
Lemma exec_spec (s : stmt) (w : World) :
  ∃ w' hs, exec s w = (Ok (), w') ∧ trace w' = trace w ∧
           ready w' = ready w ++ hs ∧ frames_prefix w w'.
Proof.
  destruct s as [name cb|name cb|name d|value]; unfold exec.
  - rewrite add_cb_spec. eexists _, []. rewrite app_nil_r.
    split_and!; try done. by unfold frames_prefix.
  - unfold mbind, M_bind. rewrite del_cb_eq.
    destruct (list_remove cb (listeners w name)); eexists _, [];
      rewrite app_nil_r; (split_and!; try done); by unfold frames_prefix.
  - apply event_grows.
  - unfold modify, stop_setter, put_nowait. eexists _, []. rewrite app_nil_r.
    split_and!; try done; unfold frames_prefix; by destruct (truthy value).
Qed.

Lemma exec_all_spec (l : list stmt) :
  ∀ w, ∃ w' hs, for_each exec l w = (Ok (), w') ∧ trace w' = trace w ∧
                ready w' = ready w ++ hs ∧ frames_prefix w w'.
Proof.
  induction l as [|s l IH]; intros w; simpl.
  - exists w, []. rewrite app_nil_r. split_and!; done.
  - destruct (exec_spec s w) as (w1 & hs1 & He & Ht1 & Hr1 & Hf1).
    destruct (IH w1) as (w2 & hs2 & Hl & Ht2 & Hr2 & Hf2).
    exists w2, (hs1 ++ hs2). unfold mbind, M_bind. rewrite He, Hl.
    split_and!; [done|congruence| |by etrans].
    by rewrite Hr2, Hr1, app_assoc.
Qed.

(** The body of any listener: one entry in the trace for the call, and
    after it handles at the end of the ready queue at most, whether the
    body returns or raises. *)
Lemma invoke_spec (cb : callback) (d : pyval) (w : World) :
  ∃ r w' hs, invoke cb d w = (r, w') ∧ trace w' = trace w ++ [Invoked cb d] ∧
             ready w' = ready w ++ hs ∧ frames_prefix w w'.
Proof.
  unfold invoke, mbind, M_bind, log, modify.
  set (w0 := set_trace (λ t, t ++ [Invoked cb d]) w).
  assert (∀ r : res (), ∃ r' w' hs, (r, w0) = (r', w') ∧ trace w' = trace w ++ [Invoked cb d] ∧
                           ready w' = ready w ++ hs ∧ frames_prefix w w') as Hsame.
  { intros r. exists r, w0, []. rewrite app_nil_r. split_and!; try done.
    by unfold frames_prefix. }
  assert (∀ m : M (), (∃ w1 hs, m w0 = (Ok (), w1) ∧ trace w1 = trace w0 ∧
                         ready w1 = ready w0 ++ hs ∧ frames_prefix w0 w1) →
               ∃ r' w' hs, m w0 = (r', w') ∧ trace w' = trace w ++ [Invoked cb d] ∧
                           ready w' = ready w ++ hs ∧ frames_prefix w w') as Hgrow.
  { intros m (w1 & hs & -> & Ht & Hr & Hf). exists (Ok ()), w1, hs.
    split_and!; [done|by rewrite Ht|by rewrite Hr|].
    unfold frames_prefix in *. by etrans; [|exact Hf]. }
  destruct cb as [| | | | |n]; try apply Hsame.
  - (* self.changed *)
    unfold changed, lift, mbind, M_bind, raise.
    destruct (getitem d "collection") as [c|e]; [|apply Hsame].
    destruct (ChangedStreamMessage_of c) as [[]|]; [..|apply Hsame];
      apply (Hgrow (event _ d)), event_grows.
  - (* a callable of the application *)
    apply (Hgrow (for_each exec (body n d))), exec_all_spec.
Qed.

(** One turn of the loop on the handle of a listener. *)
Lemma run_once_listener (h : handle) (r : list handle) (cb : callback) (d : pyval) (w : World) :
  ready w = h :: r →
  run_handle h (set_ready (λ _, r) w) = invoke cb d (set_ready (λ _, r) w) →
  invocations (run_once w) = invocations w ++ [(cb, d)] ∧
  (∃ hs, ready (run_once w) = r ++ hs) ∧
  frames_prefix w (run_once w).
Proof.
  intros Hr Hh. unfold run_once. rewrite Hr, Hh.
  destruct (invoke_spec cb d (set_ready (λ _, r) w)) as (res & w' & hs & -> & Ht & Hrd & Hf).
  assert (invocations w' = invocations w ++ [(cb, d)]) as Hinv.
  { unfold invocations. rewrite Ht. simpl. by rewrite omap_app. }
  destruct res as [[]|e]; simpl in *.
  - split_and!; [done|by exists hs|done].
  - split_and!.
    + unfold invocations in *. simpl. rewrite omap_app, Hinv. simpl.
      by rewrite app_nil_r.
    + by exists hs.
    + done.
Qed.

Lemma run_add (n m : nat) : ∀ w, run (n + m) w = run m (run n w).
Proof. induction n as [|n IH]; intros w; simpl; [done|apply IH]. Qed.

(** The tasks of coroutine functions queued by a pass run in the order
    they were queued, each on its own listener. *)
Lemma run_coroutines (d : pyval) (l : list callback) :
  ∀ (w : World) (rest : list handle),
    ready w = map (λ c, HCoroutine c d) l ++ rest →
    invocations (run (length l) w) = invocations w ++ map (λ c, (c, d)) l ∧
    (∃ hs, ready (run (length l) w) = rest ++ hs) ∧
    frames_prefix w (run (length l) w).
Proof.
  induction l as [|c l IH]; intros w rest Hr; simpl.
  - rewrite app_nil_r. split_and!; [done| |done]. exists []. by rewrite app_nil_r.
  - destruct (run_once_listener (HCoroutine c d) (map (λ c, HCoroutine c d) l ++ rest)
                c d w Hr eq_refl) as (Hi & (hs & Hrd) & Hf).
    destruct (IH (run_once w) (rest ++ hs)) as (Hi' & (hs' & Hrd') & Hf').
    { by rewrite Hrd, app_assoc. }
    split_and!.
    + rewrite Hi', Hi, <-app_assoc. done.
    + exists (hs ++ hs'). by rewrite Hrd', app_assoc.
    + by etrans.
Qed.

(** [X4].  On an idle loop, when every listener under the name but
    possibly the last is a coroutine function, firing the event and
    letting the loop run one turn per listener invokes every listener
    exactly once with the payload, in the order of registration. *)
Theorem event_reaches_listeners_in_order
    (name : string) (payload : pyval) (l : list callback) (cb : callback) (w : World) :
  ready w = [] →
  listeners w name = l ++ [cb] →
  Forall (λ c, is_coroutine c = true) l →
  invocations (run (length (l ++ [cb])) (event name payload w).2) =
    invocations w ++ map (λ c, (c, payload)) (l ++ [cb]).
Proof.
  intros Hidle Hl Hco. rewrite length_app, run_add. simpl.
  set (w1 := (event name payload w).2).
  assert (ready w1 = map (λ c, HCoroutine c payload) l
                     ++ [queued (length (frames w)) payload cb] ∧
          frames w1 !! length (frames w) =
            Some {| cell_cb := Some cb; cell_data := payload |} ∧
          invocations w1 = invocations w) as (Hr1 & Hf1 & Hi1).
  { unfold w1. rewrite event_spec, Hl. simpl. rewrite Hidle. split_and!.
    - rewrite map_app. simpl. f_equal. apply map_ext_Forall.
      eapply Forall_impl; [exact Hco|]. intros c Hc. unfold queued. by rewrite Hc.
    - rewrite last_snoc. by rewrite lookup_app_r, Nat.sub_diag by lia.
    - done. }
  destruct (run_coroutines payload l w1 _ Hr1) as (Hi2 & (hs & Hr2) & Hf2).
  set (w2 := run (length l) w1) in *.
  assert (run_handle (queued (length (frames w)) payload cb) (set_ready (λ _, hs) w2) =
          invoke cb payload (set_ready (λ _, hs) w2)) as Hh.
  { unfold queued. destruct (is_coroutine cb) eqn:Hcb; [done|].
    unfold run_handle, mbind, M_bind, get. simpl.
    rewrite (prefix_lookup_Some _ _ _ _ Hf1 Hf2). unfold call. by rewrite Hcb. }
  destruct (run_once_listener _ hs cb payload w2 Hr2 Hh) as (Hi3 & _ & _).
  rewrite Hi3, Hi2, Hi1, map_app, <-app_assoc. done.
Qed.

End Dispatch.

(** ** The handler loop, message by message *)

Section Routing.
Context `{Env}.

(** A message that is not falsy is classified, and dispatched on its type. *)
Lemma route_truthy (msg : pyval) (w : World) :
  truthy msg = true →
  route msg w = dispatch msg (msg_type msg) (set_trace (λ t, t ++ [Classified msg]) w).
Proof. intros Ht. unfold route. by rewrite Ht. Qed.

Lemma filter_truthy_cons (msg : pyval) (l : list pyval) :
  filter (λ m, truthy m) (msg :: l) =
    if truthy msg then msg :: filter (λ m, truthy m) l else filter (λ m, truthy m) l.
Proof. rewrite filter_cons. destruct (truthy msg); simpl; try case_decide; naive_solver. Qed.

Lemma route_stop (msg : pyval) : keeps (same _stop) (route msg).
Proof.
  intros w. destruct (truthy msg) eqn:Ht.
  - rewrite (route_truthy _ _ Ht).
    pose proof (dispatch_stop msg (msg_type msg)
                  (set_trace (λ t, t ++ [Classified msg]) w)) as Hd.
    unfold same in *. by rewrite Hd.
  - unfold route. by rewrite Ht.
Qed.

Lemma queue_get_in_order (fuel : nat) :
  ∀ w, length (_queue w) < fuel →
    ∃ consumed,
      _queue w = consumed ++ _queue (queue_get fuel w).2 ∧
      trace (queue_get fuel w).2 =
        trace w ++ map Classified (filter (λ m, truthy m) consumed) ∧
      _stop (queue_get fuel w).2 = _stop w ∧
      ((queue_get fuel w).1 = Blocked → _queue (queue_get fuel w).2 = []) ∧
      ((queue_get fuel w).1 = Returned → _stop w = true) ∧
      (queue_get fuel w).1 ≠ OutOfFuel.
Proof.
  induction fuel as [|fuel IH]; intros w Hlen; [lia|].
  simpl. destruct (_queue w) as [|msg q] eqn:Hq.
  { exists []. simpl. rewrite app_nil_r. split_and!; done. }
  pose proof (route_queue msg (set_queue (λ _, q) w)) as Hrq.
  pose proof (route_stop msg (set_queue (λ _, q) w)) as Hrs.
  pose proof (route_trace msg (set_queue (λ _, q) w)) as Hrt.
  unfold same in Hrq, Hrs.
  assert (trace (set_queue (λ _, q) w) = trace w) as Ht0 by (by destruct w).
  assert (_stop (set_queue (λ _, q) w) = _stop w) as Hs0 by (by destruct w).
  assert (_queue (set_queue (λ _, q) w) = q) as Hq0 by (by destruct w).
  rewrite Ht0 in Hrt. rewrite Hs0 in Hrs. rewrite Hq0 in Hrq. clear Ht0 Hs0 Hq0.
  assert (trace w ++ (if truthy msg then [Classified msg] else []) =
          trace w ++ map Classified (filter (λ m, truthy m) [msg])) as Hone.
  { rewrite filter_truthy_cons. by destruct (truthy msg). }
  destruct (route msg (set_queue (λ _, q) w)) as [[[]|e] w'] eqn:Hr; simpl in *.
  - destruct (stop w') eqn:Hst; simpl.
    + exists [msg]. rewrite Hrq. split_and!; try done; [congruence|].
      intros _. unfold stop in Hst. congruence.
    + destruct (IH w') as (consumed & Hc & Htr & Hs & Hb & Hret & Hfuel).
      { rewrite Hrq. simpl in Hlen. lia. }
      exists (msg :: consumed). split_and!; try done.
      * rewrite Hrq in Hc. by rewrite Hc.
      * rewrite Htr, Hrt, filter_truthy_cons. destruct (truthy msg); simpl.
        -- by rewrite <-app_assoc.
        -- by rewrite app_nil_r.
      * congruence.
      * intros Hret'. apply Hret in Hret'. congruence.
  - exists [msg]. rewrite Hrq. split_and!; try done. congruence.
Qed.

(** [X5].  [handler_loop] takes the queued messages one by one from the
    head of the queue and classifies those that are not falsy, each once
    and in the order of arrival; what it has not taken stays queued in
    order.  It never changes the stop flag itself.  It returns exactly
    when the flag was set before it took anything, and it is suspended
    only once the queue is empty; otherwise an exception has left it. *)
Theorem handler_loop_in_order (w : World) :
  ∃ consumed,
    _queue w = consumed ++ _queue (handler_loop w).2 ∧
    trace (handler_loop w).2 =
      trace w ++ map Classified (filter (λ m, truthy m) consumed) ∧
    _stop (handler_loop w).2 = _stop w ∧
    ((handler_loop w).1 = Blocked → _queue (handler_loop w).2 = []) ∧
    ((handler_loop w).1 = Returned ↔ _stop w = true) ∧
    ((handler_loop w).1 = Returned → consumed = []) ∧
    (handler_loop w).1 ≠ OutOfFuel.
Proof.
  unfold handler_loop, handler_resume, stop. destruct (_stop w) eqn:Hs.
  { exists []. simpl. rewrite app_nil_r. split_and!; done. }
  destruct (queue_get_in_order (S (length (_queue w))) w) as
    (consumed & Hc & Ht & Hst & Hb & Hret & Hfuel); [lia|].
  exists consumed. split_and!; try done.
  - congruence.
  - split; [|done]. intros Hr. apply Hret in Hr. congruence.
  - intros Hr. apply Hret in Hr. congruence.
Qed.

(** [X6].  Keepalive: a Ping message makes the loop spawn [send_pong]
    and nothing else; when that task runs, one pong is sent and nothing
    else changes.  This holds for every class of client. *)
Theorem ping_is_answered (msg : pyval) (w : World) :
  truthy msg = true →
  msg_type msg = PING →
  route msg w =
    (Ok (), set_ready (λ r, r ++ [HSendPong])
              (set_trace (λ t, t ++ [Classified msg]) w)) ∧
  ∀ w', run_handle HSendPong w' =
          (Ok (), set_trace (λ t, t ++ [Started sock_send_pong]) w').
Proof.
  intros Ht Hty. split; [|done].
  rewrite (route_truthy _ _ Ht), Hty. done.
Qed.

(** [X7].  The handshake of a [Client] or an [OverrideClient]: a message
    of type NONE makes the loop spawn [do_connect]; that task queues the
    sending of the connect message, which then starts.  Nothing else
    changes on the way. *)
Theorem none_starts_the_handshake (msg : pyval) (w : World) :
  cls w ≠ EventClientK →
  truthy msg = true →
  msg_type msg = NONE →
  route msg w =
    (Ok (), set_ready (λ r, r ++ [HDoConnect])
              (set_trace (λ t, t ++ [Classified msg]) w)) ∧
  (∀ w', run_handle HDoConnect w' =
           (Ok (), set_ready (λ r, r ++ [HExtern sock_send_connect]) w')) ∧
  (∀ w', run_handle (HExtern sock_send_connect) w' =
           (Ok (), set_trace (λ t, t ++ [Started sock_send_connect]) w')).
Proof.
  intros Hcls Ht Hty. split_and!; [|done..].
  rewrite (route_truthy _ _ Ht), Hty.
  unfold dispatch. simpl. unfold ensure_future_do_connect, mbind, M_bind, get. simpl.
  by destruct (cls w).
Qed.

(** [X8].  For an [EventClient] a message of type NONE ends the handler
    loop: [do_connect] is a plain function there, so it runs at once
    (the listeners of [connection_established] get their handles, with
    the payload [None], and the sending of the connect message is
    queued), and [ensure_future] then refuses its result with a
    TypeError that leaves [handler_loop].  The message is consumed, the
    ones behind it stay in the queue. *)
Theorem EventClient_none_ends_the_loop (msg : pyval) (q : list pyval) (w : World) :
  cls w = EventClientK →
  _stop w = false →
  _queue w = msg :: q →
  truthy msg = true →
  msg_type msg = NONE →
  ∃ w', handler_loop w = (Crashed TypeError, w') ∧
        _queue w' = q ∧
        trace w' = trace w ++ [Classified msg] ∧
        ready w' = ready w
                   ++ map (queued (length (frames w)) PNone)
                          (listeners w "connection_established")
                   ++ [HExtern sock_send_connect].
Proof.
  intros Hcls Hs Hq Ht Hty.
  unfold handler_loop, handler_resume, stop. rewrite Hs, Hq. cbn [queue_get length].
  rewrite Hq, (route_truthy _ _ Ht), Hty.
  unfold dispatch. simpl.
  unfold ensure_future_do_connect, mbind at 1, M_bind at 1, get. simpl. rewrite Hcls.
  unfold EventClient_do_connect, mbind, M_bind. rewrite event_spec. simpl.
  eexists. split_and!; [done..|]. simpl. unfold listeners. simpl.
  by rewrite <-app_assoc.
Qed.

(** [X9].  A Connected message: the loop stores the session id of the
    parsed message in the client's attribute [session] (the client data,
    [ClientData.session] included, is not touched) and spawns
    [do_login]; that task starts the login call with the user name and
    the password of the client data and waits for its result. *)
Theorem connected_starts_login (msg m s : pyval) (w : World) :
  truthy msg = true →
  msg_type msg = CONNECTED →
  parse_connected msg = Ok m →
  getitem m "session" = Ok s →
  route msg w =
    (Ok (), set_ready (λ r, r ++ [HDoLogin])
              (set_self_session s (set_trace (λ t, t ++ [Classified msg]) w))) ∧
  ∀ w', run_handle HDoLogin w' =
          (Ok (), set_waiting
                    (λ l, l ++ [(Call (login_sha256 (username (data w')) (password (data w'))),
                                 KLogin)])
                    (set_trace
                       (λ t, t ++ [Started (login_sha256 (username (data w'))
                                                         (password (data w')))]) w')).
Proof.
  intros Ht Hty Hp Hsess. split.
  - rewrite (route_truthy _ _ Ht), Hty. unfold dispatch. simpl.
    unfold mbind, M_bind, lift. by rewrite Hp, Hsess.
  - intros w'. done.
Qed.

(** [X10].  A Connected message whose parsed form has no session ends
    the handler loop with the error of the lookup: the message has been
    consumed and classified, but no session is stored and no login is
    spawned. *)
Theorem connected_without_session_ends_the_loop
    (msg m : pyval) (e : exn) (q : list pyval) (w : World) :
  _stop w = false →
  _queue w = msg :: q →
  truthy msg = true →
  msg_type msg = CONNECTED →
  parse_connected msg = Ok m →
  getitem m "session" = Raise e →
  handler_loop w =
    (Crashed e, set_trace (λ t, t ++ [Classified msg]) (set_queue (λ _, q) w)).
Proof.
  intros Hs Hq Ht Hty Hp Hsess.
  unfold handler_loop, handler_resume, stop. rewrite Hs, Hq. cbn [queue_get length].
  rewrite Hq, (route_truthy _ _ Ht), Hty. unfold dispatch. simpl.
  unfold mbind, M_bind, lift. by rewrite Hp, Hsess.
Qed.

(** [X11].  For an [EventClient], a message of one of the five push
    types is handed to a [parse] task, and that task fires the event
    named after the type with the message as payload. *)
Theorem push_is_fired (msg : pyval) (name : string) (w : World) :
  truthy msg = true →
  push_event (msg_type msg) = Some name →
  route msg w =
    (Ok (), set_ready (λ r, r ++ [HParse msg (msg_type msg)])
              (set_trace (λ t, t ++ [Classified msg]) w)) ∧
  ∀ w', cls w' = EventClientK →
        run_handle (HParse msg (msg_type msg)) w' = event name msg w'.
Proof.
  intros Ht Hname. split.
  - rewrite (route_truthy _ _ Ht).
    destruct (msg_type msg); try discriminate; done.
  - intros w' Hcls. unfold run_handle, mbind, M_bind, get. rewrite Hcls.
    destruct (msg_type msg); try discriminate; by injection Hname as <-.
Qed.

End Routing.

(** ** Changed messages *)

Section Changed.
Context `{Env}.

(** [changed] on a message of a known stream. *)
Lemma changed_stream (msg c : pyval) (s : ChangedStreamMessage) (w : World) :
  getitem msg "collection" = Ok c →
  ChangedStreamMessage_of c = Some s →
  changed msg w = event (stream_event s) msg w.
Proof.
  intros Hc Hs. unfold changed, mbind, M_bind, lift. rewrite Hc, Hs. by destruct s.
Qed.

Lemma run_once_ok (h : handle) (r : list handle) (w w' : World) :
  ready w = h :: r →
  run_handle h (set_ready (λ _, r) w) = (Ok (), w') →
  run_once w = w'.
Proof. intros Hr Hh. unfold run_once. by rewrite Hr, Hh. Qed.

(** [X12].  A Changed message on its way through an [EventClient] that
    still has [self.changed] as the only listener of ["changed"], on an
    idle loop: after the turn of the [parse] task and the turn of
    [self.changed], the message has been classified, [self.changed] has
    run once, and the listeners registered under the event of the
    message's stream ([users], [notify_user], [notify_room] or
    [room_message]) each have a handle in the ready queue, in the order
    of registration. *)
Theorem changed_reaches_stream_listeners
    (msg c : pyval) (s : ChangedStreamMessage) (w : World) :
  cls w = EventClientK →
  ready w = [] →
  truthy msg = true →
  msg_type msg = CHANGED →
  listeners w "changed" = [self_changed] →
  getitem msg "collection" = Ok c →
  ChangedStreamMessage_of c = Some s →
  trace (run 2 (route msg w).2) =
    trace w ++ [Classified msg; Invoked self_changed msg] ∧
  ready (run 2 (route msg w).2) =
    map (queued (S (length (frames w))) msg) (listeners w (stream_event s)).
Proof.
  intros Hcls Hidle Ht Hty Hl Hc Hs.
  rewrite (route_truthy _ _ Ht), Hty.
  set (w1 := (dispatch msg CHANGED (set_trace (λ t, t ++ [Classified msg]) w)).2).
  (* the turn of the parse task *)
  set (w2 := (event "changed" msg (set_ready (λ _, []) w1)).2).
  assert (run_once w1 = w2) as H1.
  { apply (run_once_ok (HParse msg CHANGED) []).
    - unfold w1, dispatch. simpl. by rewrite Hidle.
    - unfold run_handle, mbind, M_bind, get. simpl. rewrite Hcls.
      change (EventClient_parse msg CHANGED) with (event "changed" msg).
      unfold w2. by rewrite event_spec. }
  assert (listeners (set_ready (λ _, []) w1) "changed" = [self_changed]) as Hl1.
  { unfold listeners in *. simpl. exact Hl. }
  assert (ready w2 = [HLambda (length (frames w))] ∧
          frames w2 = frames w ++ [{| cell_cb := Some self_changed; cell_data := msg |}] ∧
          trace w2 = trace w ++ [Classified msg] ∧
          (∀ n, listeners w2 n = listeners w n)) as (Hr2 & Hf2 & Ht2 & Hl2).
  { unfold w2. rewrite event_spec, Hl1. simpl. split_and!; try done.
    intros n. unfold listeners in *. simpl. rewrite lookup_insert.
    case_decide; [subst; by rewrite Hl|done]. }
  (* the turn of self.changed *)
  set (w2' := set_trace (λ t, t ++ [Invoked self_changed msg]) (set_ready (λ _, []) w2)).
  assert (run_once w2 = (event (stream_event s) msg w2').2) as H2.
  { apply (run_once_ok (HLambda (length (frames w))) []); [done|].
    unfold run_handle, mbind, M_bind, get. simpl. rewrite Hf2.
    rewrite lookup_app_r, Nat.sub_diag by lia. simpl.
    unfold call. simpl. unfold invoke, mbind, M_bind, log, modify.
    rewrite (changed_stream _ _ _ _ Hc Hs). fold w2'. by rewrite event_spec. }
  cbn [run]. fold w1. rewrite H1, H2, event_spec. simpl.
  rewrite Ht2, Hf2, length_app. simpl. split.
  - by rewrite <-app_assoc.
  - rewrite Nat.add_1_r. f_equal.
    transitivity (listeners w2 (stream_event s)); [|apply Hl2].
    unfold listeners. done.
Qed.

(** [X13].  A Changed message without a [collection], or with one that
    names no stream, stops [self.changed] with the error (a KeyError or
    a TypeError of the lookup, a ValueError of the enum): the call of
    the listener is the only thing that has happened, no event is fired
    again on to the stream's listeners. *)
Theorem changed_without_stream_fires_nothing (msg : pyval) (w : World) :
  (∃ e, getitem msg "collection" = Raise e) ∨
  (∃ c, getitem msg "collection" = Ok c ∧ ChangedStreamMessage_of c = None) →
  ∃ e, invoke self_changed msg w =
         (Raise e, set_trace (λ t, t ++ [Invoked self_changed msg]) w).
Proof.
  intros [[e He]|(c & Hc & Hs)]; unfold invoke, changed, mbind, M_bind, log, modify, lift.
  - exists e. by rewrite He.
  - exists ValueError. by rewrite Hc, Hs.
Qed.

End Changed.

(** ** OverrideClient *)

Section Override.
Context `{Env}.

(** [X14].  [OverrideClient.parse] as written, with the handlers that
    only [pass]: whatever the message and its type, and whether it
    returns or raises, it leaves the client and the loop exactly as
    they were. *)
Theorem OverrideClient_parse_changes_nothing
    (msg : pyval) (msgtype : RawMessageType) (w : World) :
  (OverrideClient_parse msg msgtype w).2 = w.
Proof.
  unfold OverrideClient_parse.
  repeat (case_decide; [try done|]); try done.
  unfold on_changed, on_notify_user, on_room_message, mbind, M_bind, lift, raise.
  destruct (getitem msg "collection") as [c|e]; [|done].
  destruct (ChangedStreamMessage_of c) as [[]|]; try done.
  - destruct (parse_changed_notify_user msg) as [m|e]; [|done]. simpl.
    destruct (getitem m "type") as [ty|e]; [|done]. by destruct (is_NotifyUser ty).
  - destruct (parse_changed_room_message msg) as [m|e]; [|done]. simpl.
    destruct (getitem m "type") as [ty|e]; [|done]. by destruct (is_RoomMessage ty).
Qed.

(** [X15].  [OverrideClient.parse] on a Changed message of the stream of
    room messages never returns normally: the handlers of
    [on_room_message] are plain functions that return [None], and
    [on_changed] awaits that result.  The task ends in a TypeError, or
    earlier in the error of the parser or of a lookup, and the client is
    left as it was. *)
Theorem OverrideClient_room_message_raises (msg c : pyval) (w : World) :
  getitem msg "collection" = Ok c →
  ChangedStreamMessage_of c = Some ROOM_MESSAGES →
  ∃ e, OverrideClient_parse msg CHANGED w = (Raise e, w) ∧
       (∀ m ty, parse_changed_room_message msg = Ok m →
                getitem m "type" = Ok ty →
                is_RoomMessage ty = true → e = TypeError).
Proof.
  intros Hc Hs.
  change (OverrideClient_parse msg CHANGED) with (on_changed msg).
  unfold on_changed, on_room_message, mbind, M_bind, lift, raise.
  rewrite Hc, Hs.
  destruct (parse_changed_room_message msg) as [m|e] eqn:Hm.
  2:{ exists e. split; [done|]. intros; discriminate. }
  destruct (getitem m "type") as [ty|e] eqn:Hty.
  2:{ exists e. split; [done|]. intros m' ty' Hm' Hty'. injection Hm' as <-.
      rewrite Hty in Hty'. discriminate. }
  destruct (is_RoomMessage ty) eqn:Hrm.
  - exists TypeError. split; [done|]. done.
  - exists (KeyError ty). split; [done|].
    intros m' ty' Hm' Hty' Hrm'. injection Hm' as <-. rewrite Hty in Hty'.
    injection Hty' as <-. congruence.
Qed.

(** [X16].  A TooManyRequests error whose [details] hold no usable
    [timeToReset] (the key is missing, or [int] refuses the value): the
    [on_error] task of an [OverrideClient] ends in that error before it
    sleeps, and nothing is scheduled: no timer, no resend. *)
Theorem too_many_requests_without_reset
    (error_result recover_message e0 d : pyval) (e : exn) (w : World) :
  cls w = OverrideClientK →
  getitem error_result "error" = Ok e0 →
  getitem e0 "details" = Ok d →
  getitem d "timeToReset" = Raise e ∨
    (∃ t, getitem d "timeToReset" = Ok t ∧ py_int int_of_str t = Raise e) →
  run_handle (HOnError TOO_MANY_REQUESTS error_result recover_message) w = (Raise e, w).
Proof.
  intros Hcls He0 Hd Ht.
  unfold run_handle, mbind, M_bind, get. rewrite Hcls.
  unfold on_error. rewrite String.eqb_refl.
  unfold on_too_many_requests, mbind, M_bind, lift. rewrite He0, Hd.
  destruct Ht as [Ht|(t & Ht & Hint)]; rewrite Ht; [done|]. by rewrite Hint.
Qed.

(** [X17].  When the sleep is over, the resend needs both the room id
    and the text: if the recover message lacks [rid] or [msg], the task
    ends in the error of the lookup and nothing is sent. *)
Theorem resend_needs_room_and_text (recover_message v : pyval) (e : exn) (w : World) :
  getitem recover_message "rid" = Raise e ∨
    (∃ rid, getitem recover_message "rid" = Ok rid ∧
            getitem recover_message "msg" = Raise e) →
  run_handle (HResume (KTooManyRequests recover_message) v) w = (Raise e, w).
Proof.
  intros Hrm. unfold run_handle, on_too_many_requests_resume, mbind, M_bind, lift.
  destruct Hrm as [Hr|(rid & Hr & Hm)]; rewrite Hr; [done|]. by rewrite Hm.
Qed.

(** [X18].  A [timeToReset] that [int] turns into an integer that is
    not positive and that converts to a float: the delay
    [float(timeToReset) * 0.001] is not positive either, so no timer is
    set; the task only yields to the loop, and the rest of the task, the
    resend, is queued at once. *)
Theorem too_many_requests_without_delay
    (error_result recover_message e0 d v : pyval) (t : Z) (f : float) (w : World) :
  cls w = OverrideClientK →
  getitem error_result "error" = Ok e0 →
  getitem e0 "details" = Ok d →
  getitem d "timeToReset" = Ok v →
  py_int int_of_str v = Ok t →
  (t ≤ 0)%Z →
  float_of_int t = Ok f →
  SFleb (SFmul 53 1024 f (S754_finite false 4611686018427388 (-62))) (S754_zero false)
    = true ∧
  run_handle (HOnError TOO_MANY_REQUESTS error_result recover_message) w =
    (Ok (), set_ready (λ r, r ++ [HResume (KTooManyRequests recover_message) PNone]) w).
Proof.
  intros Hcls He0 Hd Hv Ht Hle Hf.
  pose proof (no_delay t f Hle Hf) as Hno. split; [exact Hno|].
  unfold run_handle, mbind, M_bind, get. rewrite Hcls.
  unfold on_error. rewrite String.eqb_refl.
  unfold on_too_many_requests, mbind, M_bind, lift. rewrite He0, Hd, Hv, Ht.
  unfold int_mul_float. rewrite Hf. unfold sleep. by rewrite Hno.
Qed.

(** [X19].  [Client] and [EventClient] have no error handling of their
    own: the [on_error] task spawned for a server error ends in
    NotImplementedError whatever the kind of the error, TooManyRequests
    included, and leaves everything as it was; the loop reports the
    exception and goes on with the next handle.  Nothing is sent again. *)
Theorem on_error_is_not_implemented
    (errortype : string) (error_result recover_message : pyval)
    (r : list handle) (w : World) :
  cls w ≠ OverrideClientK →
  ready w = HOnError errortype error_result recover_message :: r →
  run_once w =
    set_trace (λ t, t ++ [Unhandled NotImplementedError]) (set_ready (λ _, r) w).
Proof.
  intros Hcls Hr. unfold run_once. rewrite Hr.
  unfold run_handle, mbind, M_bind, get. simpl.
  by destruct (cls w).
Qed.

(** [X24].  A [timeToReset] that [int] turns into an integer of 2^1024
    or more, or of -2^1024 or less: the product [int(..) * 0.001] raises
    OverflowError.  The [on_error] task of an [OverrideClient] ends in it
    before it sleeps, and nothing is scheduled: no timer, no resend. *)
Theorem too_many_requests_too_large
    (error_result recover_message e0 d v : pyval) (t : Z) (w : World) :
  cls w = OverrideClientK →
  getitem error_result "error" = Ok e0 →
  getitem e0 "details" = Ok d →
  getitem d "timeToReset" = Ok v →
  py_int int_of_str v = Ok t →
  (2 ^ 1024 ≤ Z.abs t)%Z →
  run_handle (HOnError TOO_MANY_REQUESTS error_result recover_message) w =
    (Raise OverflowError, w).
Proof.
  intros Hcls He0 Hd Hv Ht Hbig.
  unfold run_handle, mbind, M_bind, get. rewrite Hcls.
  unfold on_error. rewrite String.eqb_refl.
  unfold on_too_many_requests, mbind, M_bind, lift. rewrite He0, Hd, Hv, Ht.
  unfold int_mul_float. by rewrite (float_of_int_overflows t Hbig).
Qed.

(** [X25].  A [timeToReset] that [int] turns into an integer from 1 to
    2^1023 - 1: the conversion to a float succeeds, so the [on_error]
    task of an [OverrideClient] raises nothing and goes to sleep on a
    timer of [float(timeToReset) * 0.001] seconds. *)
Theorem too_many_requests_sets_a_timer
    (error_result recover_message e0 d v : pyval) (t : Z) (w : World) :
  cls w = OverrideClientK →
  getitem error_result "error" = Ok e0 →
  getitem e0 "details" = Ok d →
  getitem d "timeToReset" = Ok v →
  py_int int_of_str v = Ok t →
  (0 < t < 2 ^ 1023)%Z →
  ∃ f, float_of_int t = Ok f ∧
       run_handle (HOnError TOO_MANY_REQUESTS error_result recover_message) w =
         (Ok (),
          set_waiting
            (λ l, l ++ [(Timer (SFmul 53 1024 f (S754_finite false 4611686018427388 (-62))),
                         KTooManyRequests recover_message)]) w).
Proof.
  intros Hcls He0 Hd Hv Ht [Hpos Hsmall].
  destruct (float_of_int_converts t) as [f Hf].
  { rewrite Z.abs_eq by (by apply Z.lt_le_incl). exact Hsmall. }
  exists f. split; [exact Hf|].
  destruct (positive_delay t f Hpos Hf) as [Hle _].
  unfold run_handle, mbind, M_bind, get. rewrite Hcls.
  unfold on_error. rewrite String.eqb_refl.
  unfold on_too_many_requests, mbind, M_bind, lift. rewrite He0, Hd, Hv, Ht.
  unfold int_mul_float. rewrite Hf. unfold sleep. by rewrite Hle.
Qed.

End Override.

(** ** Login *)

Section Login.
Context `{Env}.

(** [X20].  Whatever the awaited login call returns, and whether
    [login] then returns or raises, it changes nothing but the client
    data, and there neither the server nor the user name, the password
    or [ClientData.session]. *)
Theorem login_keeps_credentials (res : pyval) (w : World) :
  ∃ r d, login_resume res w = (r, set_data (λ _, d) w) ∧
         server d = server (data w) ∧ username d = username (data w) ∧
         password d = password (data w) ∧ session d = session (data w).
Proof.
  unfold login_resume, mbind, M_bind, lift, modify, mret, M_ret.
  destruct (getitem res "token") as [tok|e].
  2:{ exists (Raise e), (data w). by destruct w. }
  destruct (getitem res "expires") as [ex|e].
  2:{ exists (Raise e),
        {| server := server (data w); username := username (data w);
           password := password (data w); token := tok; session := session (data w);
           user_id := user_id (data w); token_expires := token_expires (data w) |}.
      by destruct w. }
  destruct (getitem res "user_id") as [uid|e].
  2:{ exists (Raise e),
        {| server := server (data w); username := username (data w);
           password := password (data w); token := tok; session := session (data w);
           user_id := user_id (data w); token_expires := ex |}.
      by destruct w. }
  exists (Ok res),
    {| server := server (data w); username := username (data w);
       password := password (data w); token := tok; session := session (data w);
       user_id := uid; token_expires := ex |}.
  by destruct w.
Qed.

(** [X21].  The fields are assigned one by one: a login result that
    has a [token] but no [expires] makes [login] raise after it has
    stored the token; the expiry and the user id keep their old values. *)
Theorem login_without_expiry_keeps_token (res tok : pyval) (e : exn) (w : World) :
  getitem res "token" = Ok tok →
  getitem res "expires" = Raise e →
  login_resume res w =
    (Raise e,
     set_data (λ d, {| server := server d; username := username d;
                       password := password d; token := tok;
                       session := session d; user_id := user_id d;
                       token_expires := token_expires d |}) w).
Proof.
  intros Ht He. unfold login_resume, mbind, M_bind, lift, modify.
  by rewrite Ht, He.
Qed.

Lemma login_resume_only_data (res : pyval) (w : World) :
  (login_resume res w).2 = set_data (λ _, data (login_resume res w).2) w.
Proof.
  unfold login_resume, mbind, M_bind, lift, modify, mret, M_ret.
  destruct (getitem res "token"); [|by destruct w].
  destruct (getitem res "expires"); [|by destruct w].
  destruct (getitem res "user_id"); by destruct w.
Qed.

(** [X22].  [EventClient.do_login]: when the login call returns a result
    with the three keys, the task stores them and then fires
    [logged_in] with the result as payload; when a key is missing the
    task ends in the KeyError and [logged_in] is not fired.  The other
    classes fire nothing. *)
Theorem logged_in_follows_login (res : pyval) (w : World) :
  match login_resume res w with
  | (Ok result, w') =>
      run_handle (HResume KLogin res) w =
        match cls w with
        | EventClientK => event "logged_in" result w'
        | _ => (Ok (), w')
        end
  | (Raise e, w') =>
      run_handle (HResume KLogin res) w = (Raise e, w') ∧ ready w' = ready w
  end.
Proof.
  pose proof (login_resume_only_data res w) as Hw.
  assert (run_handle (HResume KLogin res) w =
          match login_resume res w with
          | (Ok result, w') =>
              match cls w' with
              | EventClientK => event "logged_in" result w'
              | _ => (Ok (), w')
              end
          | (Raise e, w') => (Raise e, w')
          end) as ->.
  { unfold run_handle, mbind, M_bind, get.
    destruct (login_resume res w) as [[result|e] w']; [|done]. by destruct (cls w'). }
  destruct (login_resume res w) as [[result|e] w']; simpl in Hw.
  - assert (cls w' = cls w) as -> by (by rewrite Hw). done.
  - split; [done|]. by rewrite Hw.
Qed.

End Login.

(** ** Stopping *)

(** [X23].  Every assignment of a truthy value to [Client.stop] puts one
    more sentinel at the end of the queue, also when the flag is already
    set; a falsy value puts none. *)
Theorem stop_sentinels (values : list pyval) (w : World) :
  _queue (foldl (λ w v, stop_setter v w) w values) =
    _queue w ++ replicate (length (filter (λ v, truthy v) values)) PNone.
Proof.
  revert w. induction values as [|v values IH]; intros w; simpl.
  - by rewrite app_nil_r.
  - rewrite IH, filter_cons. unfold stop_setter, put_nowait.
    destruct (truthy v); simpl; [|done].
    by rewrite <-app_assoc.
Qed.

(** * The example environment *)

#[local] Existing Instance example_env.

(** [C1], at two plain listeners [user_cb 2] and [user_cb 3] registered
    in that order under one name: firing the event queues two lambdas,
    and when the loop runs them both call [user_cb 3]; [user_cb 2] is
    never invoked and [user_cb 3] is invoked twice. *)
Theorem event_two_plain_listeners :
  listeners two_sync "x" = [user_cb 2; user_cb 3] ∧
  ready (event "x" (PInt 7) two_sync).2 = [HLambda 0; HLambda 0] ∧
  invocations (run 2 (event "x" (PInt 7) two_sync).2) =
    [(user_cb 3, PInt 7); (user_cb 3, PInt 7)] ∧
  ready (run 2 (event "x" (PInt 7) two_sync).2) = [].
Proof. vm_compute. done. Qed.

(** [C4], at a plain listener [user_cb 1] that registers [user_cb 2] and
    then [user_cb 3] under its own event name when it runs.  The first
    pass invokes [user_cb 1] alone.  The next pass, over the three
    listeners, invokes [user_cb 3] three times: [user_cb 2], added
    during the first pass, is not invoked in the next one. *)
Theorem listener_added_in_pass_missed_by_next :
  let w1 := run 1 (event "x" (PInt 7) one_adding).2 in
  let w2 := run 3 (event "x" (PInt 8) w1).2 in
  invocations w1 = [(user_cb 1, PInt 7)] ∧
  listeners w1 "x" = [user_cb 1; user_cb 2; user_cb 3] ∧
  ready w1 = [] ∧
  invocations w2 = [(user_cb 1, PInt 7); (user_cb 3, PInt 8);
                    (user_cb 3, PInt 8); (user_cb 3, PInt 8)] ∧
  ready w2 = [].
Proof. vm_compute. done. Qed.

(** [C7] as stated fails: a login result that carries a session id
    leaves [ClientData.session] at its initial value. *)
Lemma login_leaves_session :
  getitem example_login_result "session" = Ok (PStr "sess") ∧
  session (data (login_resume example_login_result (example_client EventClientK)).2)
    = PStr "" ∧
  session (data (run_once (set_ready (λ _, [HResume KLogin example_login_result])
                                     (example_client EventClientK))))
    ≠ PStr "sess".
Proof. vm_compute. split_and!; done. Qed.

(** [C2] as stated fails: with a [timeToReset] of 2^1024 milliseconds
    the product [int(..) * 0.001] raises OverflowError.  The task of
    [on_error] ends there: no timer is set and nothing is left to run, so
    the request, which has a room id and a text, is never sent again. *)
Lemma too_many_requests_overflow :
  let error_result := example_error_with (PDict [("timeToReset", PInt (2 ^ 1024))]) in
  let w := run_once (set_ready (λ _, [HOnError "too-many-requests" error_result
                                        example_request])
                       example_pending) in
  getitem example_request "rid" = Ok (PStr "r1") ∧
  getitem example_request "msg" = Ok (PStr "hi") ∧
  on_too_many_requests error_result example_request example_pending =
    (Raise OverflowError, example_pending) ∧
  ready w = [] ∧ waiting w = [] ∧ trace w = [Unhandled OverflowError] ∧
  ∀ n, run n w = w.
Proof.
  split_and!; try (vm_compute; reflexivity).
  intros n. induction n as [|n IH]; [done|].
  cbn [run]. etrans; [|exact IH]. f_equal.
Qed.

(** [C9] as stated fails for the stop sentinel.  A loop waits on the
    empty queue; the client is stopped and a ping arrives after that.
    The loop takes the sentinel off the queue and returns: the ping, the
    next element of the queue, stays there, and nothing was classified. *)
Lemma stop_sentinel_ends_the_loop :
  let w0 := example_client ClientK in
  let w := put_nowait example_ping (stop_setter (PBool true) w0) in
  handler_loop w0 = (Blocked, w0) ∧
  _queue w = [PNone; example_ping] ∧
  truthy PNone = false ∧
  handler_resume w = (Returned, set_queue (λ _, [example_ping]) w) ∧
  _queue (handler_resume w).2 = [example_ping] ∧
  trace (handler_resume w).2 = [] ∧
  ready (handler_resume w).2 = [].
Proof. vm_compute. split_and!; done. Qed.

(** ** The theorems at concrete inputs *)

Lemma del_cb_spec_witness :
  ∃ w', del_cb "x" (user_cb 2) two_sync = (Ok true, w') ∧
        listeners w' "x" = [user_cb 3].
Proof.
  destruct (proj2 (del_cb_spec "x" (user_cb 2) two_sync))
    as (w' & l1 & l2 & Hdel & Hl & Hl1 & Hl' & _).
  { vm_compute. apply list_elem_of_here. }
  exists w'. split; [exact Hdel|].
  rewrite Hl'. destruct l1 as [|c l1].
  - vm_compute in Hl. by injection Hl as <-.
  - vm_compute in Hl. injection Hl as <- _. exfalso. apply Hl1, list_elem_of_here.
Defined.

Lemma stop_wakes_blocked_loop_witness :
  handler_resume (foldl (λ w m, put_nowait m w)
                    (stop_setter (PBool true) (example_client EventClientK))
                    [PDict [("msg", PStr "ping")]]) =
    (Returned, set_queue (λ _, [PDict [("msg", PStr "ping")]])
                 (set_stop true (example_client EventClientK))).
Proof.
  exact (proj2 (proj2 (proj2
    (stop_wakes_blocked_loop (PBool true) [PDict [("msg", PStr "ping")]]
       (example_client EventClientK) eq_refl eq_refl)))).
Defined.

Lemma falsy_message_is_skipped_witness :
  handler_resume (put_nowait example_ping (put_nowait (PDict []) (example_client ClientK))) =
    (Blocked,
     set_ready (λ _, [HSendPong])
       (set_trace (λ _, [Classified example_ping]) (example_client ClientK))).
Proof.
  destruct (falsy_message_is_skipped (PDict []) [example_ping]
              (put_nowait example_ping (put_nowait (PDict []) (example_client ClientK)))
              eq_refl eq_refl) as (_ & Hresume & _).
  rewrite Hresume. vm_compute. reflexivity.
Defined.

Lemma stop_flag_is_monotone_witness :
  stop_setter (PInt 0) (stop_setter (PBool true) (example_client ClientK)) =
    stop_setter (PBool true) (example_client ClientK) ∧
  _stop (foldl (λ w v, stop_setter v w)
           (stop_setter (PBool true) (example_client ClientK))
           [PNone; PBool false; PStr ""]) = true.
Proof.
  exact (stop_flag_is_monotone (PInt 0) [PNone; PBool false; PStr ""]
           (stop_setter (PBool true) (example_client ClientK)) eq_refl).
Defined.


Lemma login_captures_token_expiry_user_id_witness :
  login_resume example_login_result (example_client EventClientK) =
    (Ok example_login_result,
     set_data (λ d, {| server := server d; username := username d;
                       password := password d; token := PStr "tok";
                       session := session d; user_id := PStr "uid";
                       token_expires := PInt 1700000000 |})
       (example_client EventClientK)).
Proof.
  exact (login_captures_token_expiry_user_id example_login_result
           (PStr "tok") (PInt 1700000000) (PStr "uid")
           (example_client EventClientK) eq_refl eq_refl eq_refl).
Defined.

Lemma too_many_requests_resends_once_witness :
  run_handle (HOnError "too-many-requests" (example_error "too-many-requests")
                example_request) example_pending =
    (Ok (), set_waiting (λ l, l ++ [(Timer (S754_finite false 4503599627370496 (-51)),
                                     KTooManyRequests example_request)])
              example_pending) ∧
  ∀ w', run_handle (HResume (KTooManyRequests example_request) PNone) w' =
          (Ok (), set_ready (λ r, r ++ [HExtern (send_message (PStr "r1") (PStr "hi"))]) w').
Proof.
  assert (0 < 2000)%Z as Hpos by reflexivity.
  exact (proj2
    (too_many_requests_resends_once (example_error "too-many-requests") example_request
       (PDict [("error", PStr "too-many-requests");
               ("details", PDict [("timeToReset", PInt 2000)])])
       (PDict [("timeToReset", PInt 2000)]) (PInt 2000) (PStr "r1") (PStr "hi") 2000
       (S754_finite false 8796093022208000 (-42))
       example_pending eq_refl eq_refl eq_refl eq_refl eq_refl Hpos eq_refl eq_refl eq_refl)).
Defined.

Lemma other_errors_surface_without_retry_witness :
  ∃ w1,
    on_result (example_error "not-allowed") example_pending = (Ok (), w1) ∧
    delivered (_holder w1) =
      delivered (_holder example_pending) ++
        [("42", Failure {| errorKind := "not-allowed";
                           rawErrorPayload := example_error "not-allowed";
                           originalRequestPayload := example_request |})] ∧
    ready w1 = ready example_pending ++
               [HOnError "not-allowed" (example_error "not-allowed") example_request] ∧
    trace w1 = trace example_pending ∧ waiting w1 = waiting example_pending ∧
    ∀ w', cls w' = OverrideClientK →
          run_handle (HOnError "not-allowed" (example_error "not-allowed") example_request) w'
            = (Ok (), w').
Proof.
  assert (pending (_holder example_pending) !! "42" = Some example_request) as Hpending
    by (vm_compute; reflexivity).
  assert ("not-allowed" ≠ "too-many-requests") as Hkind by discriminate.
  exact (other_errors_surface_without_retry (example_error "not-allowed")
           (PDict [("error", PStr "not-allowed");
                   ("details", PDict [("timeToReset", PInt 2000)])])
           example_request "42" example_pending eq_refl eq_refl Hpending Hkind).
Defined.

(** ** The retry, from the error to the resend *)

(** The refused call of [example_pending], end to end: [on_error] runs
    and its task sleeps for two seconds, the double [2.0]; the timer runs out, the task is
    resumed and queues the resend, which starts.  One message is sent,
    with the room id and the text of the request, and the holder is as
    it was. *)
Example too_many_requests_end_to_end :
  let w0 := set_ready (λ _, [HOnError "too-many-requests"
                               (example_error "too-many-requests") example_request])
              example_pending in
  let w1 := run_once w0 in
  let w2 := run 2 (wake 0 PNone w1) in
  ready w1 = [] ∧
  waiting w1 = [(Timer (S754_finite false 4503599627370496 (-51)),
                  KTooManyRequests example_request)] ∧
  trace w1 = [] ∧
  ready w2 = [] ∧ waiting w2 = [] ∧
  trace w2 = [Started (send_message (PStr "r1") (PStr "hi"))] ∧
  delivered (_holder w2) = delivered (_holder example_pending).
Proof. vm_compute. done. Qed.

(** ** The further properties at concrete inputs *)

Lemma add_cb_then_del_cb_witness :
  ∃ w', del_cb "x" (user_cb 5) (add_cb "x" (user_cb 5) two_sync).2 = (Ok true, w') ∧
        (∀ n, listeners w' n = listeners two_sync n) ∧
        w' = set_callbacks (λ _, callbacks w') two_sync.
Proof.
  apply (add_cb_then_del_cb "x" (user_cb 5) two_sync).
  vm_compute. intros Hin.
  repeat (apply elem_of_cons in Hin as [Hin|Hin]; [discriminate|]).
  by apply elem_of_nil in Hin.
Defined.

Lemma event_reaches_listeners_in_order_witness :
  invocations (run 3 (event "x" (PInt 7) two_coroutines_then_plain).2) =
    [(user_cb 10, PInt 7); (user_cb 11, PInt 7); (user_cb 2, PInt 7)].
Proof.
  assert (listeners two_coroutines_then_plain "x" = [user_cb 10; user_cb 11] ++ [user_cb 2])
    as Hl by (vm_compute; reflexivity).
  assert (Forall (λ c, is_coroutine c = true) [user_cb 10; user_cb 11]) as Hco
    by (repeat constructor).
  exact (event_reaches_listeners_in_order "x" (PInt 7) [user_cb 10; user_cb 11] (user_cb 2)
           two_coroutines_then_plain eq_refl Hl Hco).
Defined.

Lemma ping_is_answered_witness :
  route example_ping (example_client ClientK) =
    (Ok (), set_ready (λ r, r ++ [HSendPong])
              (set_trace (λ t, t ++ [Classified example_ping]) (example_client ClientK))) ∧
  ∀ w', run_handle HSendPong w' =
          (Ok (), set_trace (λ t, t ++ [Started sock_send_pong]) w').
Proof.
  exact (ping_is_answered example_ping (example_client ClientK) eq_refl eq_refl).
Defined.

Lemma none_starts_the_handshake_witness :
  route example_hello (example_client OverrideClientK) =
    (Ok (), set_ready (λ r, r ++ [HDoConnect])
              (set_trace (λ t, t ++ [Classified example_hello])
                 (example_client OverrideClientK))) ∧
  (∀ w', run_handle HDoConnect w' =
           (Ok (), set_ready (λ r, r ++ [HExtern sock_send_connect]) w')) ∧
  (∀ w', run_handle (HExtern sock_send_connect) w' =
           (Ok (), set_trace (λ t, t ++ [Started sock_send_connect]) w')).
Proof.
  assert (cls (example_client OverrideClientK) ≠ EventClientK) as Hcls by discriminate.
  exact (none_starts_the_handshake example_hello (example_client OverrideClientK)
           Hcls eq_refl eq_refl).
Defined.

Lemma EventClient_none_ends_the_loop_witness :
  ∃ w', handler_loop (put_nowait example_ping
                        (put_nowait example_hello (example_client EventClientK))) =
          (Crashed TypeError, w') ∧
        _queue w' = [example_ping] ∧
        trace w' = [Classified example_hello] ∧
        ready w' = [HExtern sock_send_connect].
Proof.
  assert (msg_type example_hello = NONE) as Hty by reflexivity.
  assert (truthy example_hello = true) as Htr by reflexivity.
  destruct (EventClient_none_ends_the_loop example_hello [example_ping]
              (put_nowait example_ping (put_nowait example_hello (example_client EventClientK)))
              eq_refl eq_refl eq_refl Htr Hty) as (w' & Hl & Hq & Ht & Hr).
  exists w'. split_and!; [exact Hl|exact Hq|exact Ht|].
  rewrite Hr. vm_compute. reflexivity.
Defined.

Lemma connected_starts_login_witness :
  route example_connected (example_client EventClientK) =
    (Ok (), set_ready (λ r, r ++ [HDoLogin])
              (set_self_session (PStr "abc")
                 (set_trace (λ t, t ++ [Classified example_connected])
                    (example_client EventClientK)))) ∧
  ∀ w', run_handle HDoLogin w' =
          (Ok (), set_waiting
                    (λ l, l ++ [(Call (login_sha256 (username (data w')) (password (data w'))),
                                 KLogin)])
                    (set_trace
                       (λ t, t ++ [Started (login_sha256 (username (data w'))
                                                         (password (data w')))]) w')).
Proof.
  exact (connected_starts_login example_connected example_connected (PStr "abc")
           (example_client EventClientK) eq_refl eq_refl eq_refl eq_refl).
Defined.

Lemma connected_without_session_ends_the_loop_witness :
  handler_loop (put_nowait example_ping
                  (put_nowait example_connected_bare (example_client EventClientK))) =
    (Crashed (KeyError (PStr "session")),
     set_trace (λ t, t ++ [Classified example_connected_bare])
       (set_queue (λ _, [example_ping])
          (put_nowait example_ping
             (put_nowait example_connected_bare (example_client EventClientK))))).
Proof.
  exact (connected_without_session_ends_the_loop example_connected_bare
           example_connected_bare (KeyError (PStr "session")) [example_ping]
           (put_nowait example_ping
              (put_nowait example_connected_bare (example_client EventClientK)))
           eq_refl eq_refl eq_refl eq_refl eq_refl eq_refl).
Defined.

Lemma push_is_fired_witness :
  route example_added (example_client EventClientK) =
    (Ok (), set_ready (λ r, r ++ [HParse example_added (msg_type example_added)])
              (set_trace (λ t, t ++ [Classified example_added])
                 (example_client EventClientK))) ∧
  ∀ w', cls w' = EventClientK →
        run_handle (HParse example_added (msg_type example_added)) w' =
          event "added" example_added w'.
Proof.
  exact (push_is_fired example_added "added" (example_client EventClientK)
           eq_refl eq_refl).
Defined.

Lemma changed_reaches_stream_listeners_witness :
  trace (run 2 (route (example_changed "users") two_on_users).2) =
    [Classified (example_changed "users");
     Invoked self_changed (example_changed "users")] ∧
  ready (run 2 (route (example_changed "users") two_on_users).2) =
    [HCoroutine (user_cb 10) (example_changed "users"); HLambda 1].
Proof.
  assert (listeners two_on_users "changed" = [self_changed]) as Hl
    by (vm_compute; reflexivity).
  assert (msg_type (example_changed "users") = CHANGED) as Hty by reflexivity.
  assert (ChangedStreamMessage_of (PStr "users") = Some USERS) as Hs by reflexivity.
  destruct (changed_reaches_stream_listeners (example_changed "users") (PStr "users") USERS
              two_on_users eq_refl eq_refl eq_refl Hty Hl eq_refl Hs) as [Ht Hr].
  rewrite Ht, Hr. split; vm_compute; reflexivity.
Defined.

Lemma changed_without_stream_fires_nothing_witness :
  ∃ e, invoke self_changed example_changed_bare (example_client EventClientK) =
         (Raise e, set_trace (λ t, t ++ [Invoked self_changed example_changed_bare])
                     (example_client EventClientK)).
Proof.
  apply (changed_without_stream_fires_nothing example_changed_bare
           (example_client EventClientK)).
  left. exists (KeyError (PStr "collection")). reflexivity.
Defined.

Lemma OverrideClient_room_message_raises_witness :
  @OverrideClient_parse example_env_rooms example_room_joined CHANGED
    (example_client OverrideClientK) =
    (Raise TypeError, example_client OverrideClientK).
Proof.
  assert (@ChangedStreamMessage_of example_env_rooms (PStr "stream-room-messages")
          = Some ROOM_MESSAGES) as Hs by reflexivity.
  destruct (@OverrideClient_room_message_raises example_env_rooms example_room_joined
              (PStr "stream-room-messages") (example_client OverrideClientK)
              eq_refl Hs) as (e & Hparse & He).
  rewrite Hparse. f_equal. f_equal.
  apply (He example_room_joined (PStr "uj")); reflexivity.
Defined.

Lemma too_many_requests_without_reset_witness :
  run_handle (HOnError "too-many-requests" (example_error_with (PDict [])) example_request)
    example_pending =
    (Raise (KeyError (PStr "timeToReset")), example_pending).
Proof.
  exact (too_many_requests_without_reset (example_error_with (PDict [])) example_request
           (PDict [("error", PStr "too-many-requests"); ("details", PDict [])])
           (PDict []) (KeyError (PStr "timeToReset")) example_pending
           eq_refl eq_refl eq_refl (or_introl eq_refl)).
Defined.

Lemma resend_needs_room_and_text_witness :
  run_handle (HResume (KTooManyRequests (PDict [("rid", PStr "r1")])) PNone)
    example_pending =
    (Raise (KeyError (PStr "msg")), example_pending).
Proof.
  apply (resend_needs_room_and_text (PDict [("rid", PStr "r1")]) PNone
           (KeyError (PStr "msg")) example_pending).
  right. exists (PStr "r1"). split; reflexivity.
Defined.

Lemma too_many_requests_without_delay_witness :
  run_handle (HOnError "too-many-requests"
                (example_error_with (PDict [("timeToReset", PInt (-5))])) example_request)
    example_pending =
    (Ok (), set_ready (λ r, r ++ [HResume (KTooManyRequests example_request) PNone])
              example_pending).
Proof.
  assert (-5 ≤ 0)%Z as Hle by discriminate.
  exact (proj2
    (too_many_requests_without_delay
       (example_error_with (PDict [("timeToReset", PInt (-5))])) example_request
       (PDict [("error", PStr "too-many-requests");
               ("details", PDict [("timeToReset", PInt (-5))])])
       (PDict [("timeToReset", PInt (-5))]) (PInt (-5)) (-5)
       (S754_finite true 5629499534213120 (-50)) example_pending
       eq_refl eq_refl eq_refl eq_refl eq_refl Hle eq_refl)).
Defined.

Lemma too_many_requests_too_large_witness :
  run_handle (HOnError "too-many-requests"
                (example_error_with (PDict [("timeToReset", PInt (- 2 ^ 1024))]))
                example_request)
    example_pending =
    (Raise OverflowError, example_pending).
Proof.
  assert (2 ^ 1024 ≤ Z.abs (- 2 ^ 1024))%Z as Hbig by (vm_compute; discriminate).
  exact (too_many_requests_too_large
           (example_error_with (PDict [("timeToReset", PInt (- 2 ^ 1024))])) example_request
           (PDict [("error", PStr "too-many-requests");
                   ("details", PDict [("timeToReset", PInt (- 2 ^ 1024))])])
           (PDict [("timeToReset", PInt (- 2 ^ 1024))]) (PInt (- 2 ^ 1024)) (- 2 ^ 1024)
           example_pending eq_refl eq_refl eq_refl eq_refl eq_refl Hbig).
Defined.

Lemma too_many_requests_sets_a_timer_witness :
  run_handle (HOnError "too-many-requests"
                (example_error_with (PDict [("timeToReset", PInt 1)])) example_request)
    example_pending =
    (Ok (), set_waiting (λ l, l ++ [(Timer (S754_finite false 4611686018427388 (-62)),
                                     KTooManyRequests example_request)])
              example_pending).
Proof.
  assert (0 < 1 < 2 ^ 1023)%Z as Hrange by (split; vm_compute; reflexivity).
  destruct (too_many_requests_sets_a_timer
              (example_error_with (PDict [("timeToReset", PInt 1)])) example_request
              (PDict [("error", PStr "too-many-requests");
                      ("details", PDict [("timeToReset", PInt 1)])])
              (PDict [("timeToReset", PInt 1)]) (PInt 1) 1
              example_pending eq_refl eq_refl eq_refl eq_refl eq_refl Hrange)
    as (f & Hf & Hrun).
  vm_compute in Hf. injection Hf as <-. etrans; [exact Hrun|reflexivity].
Defined.

Lemma on_error_is_not_implemented_witness :
  run_once (set_ready (λ _, [HOnError "too-many-requests"
                               (example_error "too-many-requests") example_request])
              (example_client EventClientK)) =
    set_trace (λ t, t ++ [Unhandled NotImplementedError])
      (set_ready (λ _, [])
         (set_ready (λ _, [HOnError "too-many-requests"
                             (example_error "too-many-requests") example_request])
            (example_client EventClientK))).
Proof.
  assert (cls (set_ready (λ _, [HOnError "too-many-requests"
                                  (example_error "too-many-requests") example_request])
                 (example_client EventClientK)) ≠ OverrideClientK) as Hcls by discriminate.
  exact (on_error_is_not_implemented "too-many-requests"
           (example_error "too-many-requests") example_request []
           (set_ready (λ _, [HOnError "too-many-requests"
                               (example_error "too-many-requests") example_request])
              (example_client EventClientK)) Hcls eq_refl).
Defined.

Lemma login_without_expiry_keeps_token_witness :
  login_resume (PDict [("token", PStr "tok")]) (example_client EventClientK) =
    (Raise (KeyError (PStr "expires")),
     set_data (λ d, {| server := server d; username := username d;
                       password := password d; token := PStr "tok";
                       session := session d; user_id := user_id d;
                       token_expires := token_expires d |})
       (example_client EventClientK)).
Proof.
  exact (login_without_expiry_keeps_token (PDict [("token", PStr "tok")]) (PStr "tok")
           (KeyError (PStr "expires")) (example_client EventClientK) eq_refl eq_refl).
Defined.
